(** * re_backup: periodic one-way directory synchronisation with audio alerts

    Shallow embedding of [src/re_backuper.py] (function [make_re_backup]) and
    of [src/utillity/audio_alerts.py] (class [NotificationController]).

    The Python code is effectful: it touches the file system, the audio
    mixer, the speech engine, the logger and the clock, and every one of
    these calls may raise.  The embedding is a state-and-exception monad
    [M] over an explicit [world]; every call to the outside is recorded in
    a trace of [event]s, so that "was attempted", "was not touched" and
    "exactly once" are statements about that trace.

    Conventions.  Time is counted in tenths of a second.  A path is the
    list of its components.  Exceptions are those deriving from
    [Exception], the ones [except Exception] catches.  The environment
    [env] decides which outside calls fail and when, and in which order a
    set is iterated.  [while] loops take fuel; running out of it is the
    outcome [Diverge], never a result.  A started thread is an event: the
    body it runs is a definition of its own ([run_target]) and is not
    interleaved with the caller. *)

From stdpp Require Import gmap strings list fin_maps.
From Stdlib Require Import ZArith.

Open Scope string_scope.
Open Scope list_scope.
Open Scope Z_scope.

(** ** Data *)

(** A path is the list of its components; [os.path.join d f] appends one
    component and [os.path.basename] keeps the last one. *)
Abbreviation path := (list string).

Definition os_path_join (d : path) (f : string) : path := d ++ [f].

Definition os_path_basename (p : path) : path :=
  match last p with
  | Some n => [n]
  | None => []
  end.

Definition os_path_dirname (p : path) : path := removelast p.

(** A regular file: its bytes, its permission bits and its modification
    time (in tenths of a second, like [clock] below). *)
Record file := File { data : string; mode : N; mtime : Z }.

Inductive node :=
| Regular (f : file)
| Directory.

(** Python exceptions deriving from [Exception]: class name and [str(e)]. *)
Record exn := Exn { exn_class : string; exn_str : string }.

Inductive level := INFO | ERROR | DEBUG.

(** The three thread targets of [NotificationController]. *)
Inductive target := Target_alert_success | Target_alert_warning | Target_alert_error.

(** Calls to the outside world that the environment may make fail. *)
Inductive syscall :=
| SysMkdir (p : path)
| SysListdir (p : path)
| SysCopy (src dst : path)
| SysRemove (p : path)
| SysMixerInit
| SysMusicLoad (p : path)
| SysMusicPlay
| SysMusicGetBusy
| SysMusicStop
| SysMixerQuit
| SysTtsInit
| SysTtsSay
| SysTtsRunAndWait.

(** What an observer sees.  The boolean tells whether the call succeeded. *)
Inductive event :=
| EvMkdir (p : path) (ok : bool)
| EvListdir (p : path) (ok : bool)
| EvCopy (src dst : path) (ok : bool)
| EvRemove (p : path) (ok : bool)
| EvLog (l : level) (msg : string)
| EvThreadStart (t : target)
| EvSleep (ds : Z)
| EvMixerInit (ok : bool)
| EvMusicLoad (p : path) (ok : bool)
| EvMusicPlay (ok : bool)
| EvMusicStop (ok : bool)
| EvMixerQuit (ok : bool)
| EvTtsInit (ok : bool)
| EvTtsSay (msg : string) (ok : bool)
| EvSpoken (msg : string)
| EvTtsRunAndWait (ok : bool).

Global Instance file_eq_dec : EqDecision file.
Proof. solve_decision. Defined.
Global Instance node_eq_dec : EqDecision node.
Proof. solve_decision. Defined.
Global Instance exn_eq_dec : EqDecision exn.
Proof. solve_decision. Defined.
Global Instance level_eq_dec : EqDecision level.
Proof. solve_decision. Defined.
Global Instance target_eq_dec : EqDecision target.
Proof. solve_decision. Defined.
Global Instance event_eq_dec : EqDecision event.
Proof. solve_decision. Defined.

(** The state the program acts on. *)
Record world := World {
  fs : gmap path node;        (* the file system: path |-> node *)
  clock : Z;                  (* wall clock, tenths of a second *)
  mixer_ready : bool;         (* pygame.mixer is initialised (device held) *)
  music_loaded : option Z;    (* duration of the loaded music, if any *)
  music_busy : Z;             (* remaining playback time *)
  tts_queue : list string     (* utterances queued in the speech engine *)
}.

Definition set_fs (f : gmap path node → gmap path node) (w : world) : world :=
  World (f (fs w)) (clock w) (mixer_ready w) (music_loaded w) (music_busy w) (tts_queue w).

Definition set_mixer (r : bool) (l : option Z) (b : Z) (w : world) : world :=
  World (fs w) (clock w) r l b (tts_queue w).

Definition set_tts_queue (q : list string) (w : world) : world :=
  World (fs w) (clock w) (mixer_ready w) (music_loaded w) (music_busy w) q.

(** Time passes: the clock advances and playback progresses. *)
Definition advance (ds : Z) (w : world) : world :=
  World (fs w) (clock w + ds) (mixer_ready w) (music_loaded w)
        (Z.max 0 (music_busy w - ds)) (tts_queue w).

(** Iteration over a Python [set] visits every element once, in an order
    the language does not specify. *)
Record set_order := SetOrder {
  iter : gset string → list string;
  iter_perm : ∀ X, iter X ≡ₚ elements X
}.

Definition canonical_order : set_order := SetOrder elements (λ X, reflexivity _).

(** The environment: which outside calls fail at which time, how sound
    data decodes (its duration, or [None] when it is not audio), how a
    traceback prints, and how sets iterate. *)
Record env := Env {
  fault : Z → syscall → option exn;
  decode : string → option Z;
  traceback_format_exc : exn → string;
  order : set_order
}.

(** ** The monad: state, exceptions, a trace, and divergence *)

Inductive outcome (A : Type) :=
| Ret (a : A)          (* normal completion *)
| Raise (e : exn)      (* an exception propagates *)
| Diverge.             (* still running when the fuel ran out *)
Arguments Ret {A} a.
Arguments Raise {A} e.
Arguments Diverge {A}.

Record run (A : Type) := Run { res : outcome A; final : world; emitted : list event }.
Arguments Run {A} res final emitted.
Arguments res {A} r.
Arguments final {A} r.
Arguments emitted {A} r.

Definition M (A : Type) : Type := world → run A.

Global Instance M_ret : MRet M := λ A a w, Run (Ret a) w [].

Global Instance M_bind : MBind M := λ A B k m w,
  match m w with
  | Run (Ret a) w1 t1 =>
      match k a w1 with
      | Run r w2 t2 => Run r w2 (t1 ++ t2)
      end
  | Run (Raise e) w1 t1 => Run (Raise e) w1 t1
  | Run Diverge w1 t1 => Run Diverge w1 t1
  end.

Definition raise {A} (e : exn) : M A := λ w, Run (Raise e) w [].

Definition diverge {A} : M A := λ w, Run Diverge w [].

Definition emit (e : event) : M unit := λ w, Run (Ret ()) w [e].

Definition get {A} (f : world → A) : M A := λ w, Run (Ret (f w)) w [].

(** [try: body except Exception as e: handler e] *)
Definition try_except {A} (body : M A) (handler : exn → M A) : M A := λ w,
  match body w with
  | Run (Raise e) w1 t1 =>
      match handler e w1 with
      | Run r w2 t2 => Run r w2 (t1 ++ t2)
      end
  | r => r
  end.

(** [try: body except cls: pass] *)
Definition try_except_pass (cls : string) (body : M unit) : M unit :=
  try_except body (λ e, if decide (exn_class e = cls) then mret () else raise e).

(** [for x in l: s = body x s] *)
Fixpoint for_in {A S} (l : list A) (body : A → S → M S) (s : S) : M S :=
  match l with
  | [] => mret s
  | x :: l' => s' ← body x s; for_in l' body (s' : S)
  end.

(** [while cond: body], with fuel. *)
Fixpoint while (fuel : nat) (cond : M bool) (body : M unit) : M unit :=
  match fuel with
  | O => diverge
  | S fuel' => c ← cond; if (c : bool) then body;; while fuel' cond body else mret ()
  end.

(** ** The outside world: [os], [shutil], [time], the logger

    Paths are keys of the file-system map; [.] and [..] are not
    interpreted.  Each function follows the documented behaviour of the
    Python call of the same name. *)

(** [child_name d q = Some n] exactly when [q] is [d/n]. *)
Fixpoint child_name (d q : path) : option string :=
  match d, q with
  | [], [n] => Some n
  | x :: d', y :: q' => if decide (x = y) then child_name d' q' else None
  | _, _ => None
  end.

Definition children (d : path) (m : gmap path node) : list string :=
  omap (child_name d) (elements (dom m)).

Definition is_regular (o : option node) : bool :=
  match o with
  | Some (Regular _) => true
  | _ => false
  end.

(** Every entry lives in a directory (entries at top level have no parent
    in the map). *)
Definition fs_wf (m : gmap path node) : Prop :=
  map_Forall (λ p _, os_path_dirname p = [] ∨ m !! os_path_dirname p = Some Directory) m.

Definition tenths (n : Z) : Z := n.
Definition seconds (n : Z) : Z := n * 10.

Section Outside.
Context (E : env).

Definition os_path_exists (p : path) : M bool :=
  get (λ w, bool_decide (is_Some (fs w !! p))).

(** [os.mkdir]: the parent must be a directory and the name must be free. *)
Definition os_mkdir (p : path) : M unit := λ w,
  match fault E (clock w) (SysMkdir p) with
  | Some e => Run (Raise e) w [EvMkdir p false]
  | None =>
      if bool_decide (p = []) then
        Run (Raise (Exn "FileNotFoundError" "")) w [EvMkdir p false]
      else if bool_decide (is_Some (fs w !! p)) then
        Run (Raise (Exn "FileExistsError" "")) w [EvMkdir p false]
      else if bool_decide (os_path_dirname p = []
                           ∨ fs w !! os_path_dirname p = Some Directory) then
        Run (Ret ()) (set_fs (insert p Directory) w) [EvMkdir p true]
      else
        Run (Raise (Exn "FileNotFoundError" "")) w [EvMkdir p false]
  end.

(** [os.makedirs name]: split [name] into [head] and [tail]; when [head]
    is not empty and does not exist, make it first (recursively,
    swallowing [FileExistsError]); then [mkdir name].  The recursion is on
    the reversed path, whose tail is the reversed [head]. *)
Fixpoint makedirs_rev (rname : list string) : M unit :=
  match rname with
  | [] => os_mkdir []
  | tail :: rhead =>
      head_exists ← os_path_exists (rev rhead);
      (if bool_decide (rev rhead ≠ []) && negb head_exists
       then try_except_pass "FileExistsError" (makedirs_rev rhead)
       else mret ());;
      os_mkdir (rev rname)
  end.

Definition os_makedirs (name : path) : M unit := makedirs_rev (rev name).

(** [os.listdir]: the names of the entries of a directory. *)
Definition os_listdir (p : path) : M (list string) := λ w,
  match fault E (clock w) (SysListdir p) with
  | Some e => Run (Raise e) w [EvListdir p false]
  | None =>
      match fs w !! p with
      | Some Directory => Run (Ret (children p (fs w))) w [EvListdir p true]
      | Some (Regular _) => Run (Raise (Exn "NotADirectoryError" "")) w [EvListdir p false]
      | None => Run (Raise (Exn "FileNotFoundError" "")) w [EvListdir p false]
      end
  end.

(** [shutil.copy src dst]: when [dst] is a directory the target is
    [dst/basename(src)]; then [copyfile] writes the data of [src] to the
    target (a new file, stamped with the current time) and [copymode]
    gives it the permission bits of [src]. *)
Definition shutil_copy (src dst : path) : M unit := λ w,
  let target :=
    if bool_decide (fs w !! dst = Some Directory)
    then dst ++ os_path_basename src else dst in
  match fault E (clock w) (SysCopy src dst) with
  | Some e => Run (Raise e) w [EvCopy src dst false]
  | None =>
      match fs w !! src with
      | Some (Regular f) =>
          if bool_decide (src = target) then
            Run (Raise (Exn "SameFileError" "")) w [EvCopy src dst false]
          else if bool_decide (fs w !! target = Some Directory) then
            Run (Raise (Exn "IsADirectoryError" "")) w [EvCopy src dst false]
          else if bool_decide (os_path_dirname target = []
                               ∨ fs w !! os_path_dirname target = Some Directory) then
            Run (Ret ())
                (set_fs (insert target (Regular (File (data f) (mode f) (clock w)))) w)
                [EvCopy src dst true]
          else
            Run (Raise (Exn "FileNotFoundError" "")) w [EvCopy src dst false]
      | Some Directory => Run (Raise (Exn "IsADirectoryError" "")) w [EvCopy src dst false]
      | None => Run (Raise (Exn "FileNotFoundError" "")) w [EvCopy src dst false]
      end
  end.

(** [os.remove]: unlinks a regular file. *)
Definition os_remove (p : path) : M unit := λ w,
  match fault E (clock w) (SysRemove p) with
  | Some e => Run (Raise e) w [EvRemove p false]
  | None =>
      match fs w !! p with
      | Some (Regular _) => Run (Ret ()) (set_fs (delete p) w) [EvRemove p true]
      | Some Directory => Run (Raise (Exn "IsADirectoryError" "")) w [EvRemove p false]
      | None => Run (Raise (Exn "FileNotFoundError" "")) w [EvRemove p false]
      end
  end.

(** [time.sleep]: a negative length is a [ValueError]. *)
Definition time_sleep (ds : Z) : M unit := λ w,
  if ds <? 0 then
    Run (Raise (Exn "ValueError" "sleep length must be non-negative")) w []
  else Run (Ret ()) (advance ds w) [EvSleep ds].

(** [set(l)] *)
Definition set_ (l : list string) : gset string := list_to_set l.

Definition log_info (msg : string) : M unit := emit (EvLog INFO msg).
Definition log_error (msg : string) : M unit := emit (EvLog ERROR msg).
Definition log_debug (msg : string) : M unit := emit (EvLog DEBUG msg).

(** ** The outside world: [pygame.mixer], [pyttsx3], [threading] *)

Definition pygame_error (msg : string) : exn := Exn "pygame.error" msg.

(** [pygame.mixer.init]: opens the audio device; a second call is a no-op. *)
Definition pygame_mixer_init : M unit := λ w,
  match fault E (clock w) SysMixerInit with
  | Some e => Run (Raise e) w [EvMixerInit false]
  | None =>
      Run (Ret ()) (set_mixer true (music_loaded w) (music_busy w) w) [EvMixerInit true]
  end.

(** [pygame.mixer.music.load]: needs the mixer, a regular file and
    decodable data. *)
Definition pygame_mixer_music_load (p : path) : M unit := λ w,
  match fault E (clock w) (SysMusicLoad p) with
  | Some e => Run (Raise e) w [EvMusicLoad p false]
  | None =>
      if negb (mixer_ready w) then
        Run (Raise (pygame_error "mixer not initialized")) w [EvMusicLoad p false]
      else
        match fs w !! p with
        | Some (Regular f) =>
            match decode E (data f) with
            | Some d => Run (Ret ()) (set_mixer true (Some d) 0 w) [EvMusicLoad p true]
            | None => Run (Raise (pygame_error "Unrecognized audio format")) w
                          [EvMusicLoad p false]
            end
        | _ => Run (Raise (Exn "FileNotFoundError" "")) w [EvMusicLoad p false]
        end
  end.

Definition pygame_mixer_music_play : M unit := λ w,
  match fault E (clock w) SysMusicPlay with
  | Some e => Run (Raise e) w [EvMusicPlay false]
  | None =>
      match mixer_ready w, music_loaded w with
      | true, Some d => Run (Ret ()) (set_mixer true (Some d) (Z.max 0 d) w) [EvMusicPlay true]
      | true, None => Run (Raise (pygame_error "music not loaded")) w [EvMusicPlay false]
      | false, _ => Run (Raise (pygame_error "mixer not initialized")) w [EvMusicPlay false]
      end
  end.

Definition pygame_mixer_music_get_busy : M bool := λ w,
  match fault E (clock w) SysMusicGetBusy with
  | Some e => Run (Raise e) w []
  | None =>
      if mixer_ready w then Run (Ret (0 <? music_busy w)) w []
      else Run (Raise (pygame_error "mixer not initialized")) w []
  end.

Definition pygame_mixer_music_stop : M unit := λ w,
  match fault E (clock w) SysMusicStop with
  | Some e => Run (Raise e) w [EvMusicStop false]
  | None =>
      if mixer_ready w then
        Run (Ret ()) (set_mixer true (music_loaded w) 0 w) [EvMusicStop true]
      else Run (Raise (pygame_error "mixer not initialized")) w [EvMusicStop false]
  end.

(** [pygame.mixer.quit]: closes the audio device. *)
Definition pygame_mixer_quit : M unit := λ w,
  match fault E (clock w) SysMixerQuit with
  | Some e => Run (Raise e) w [EvMixerQuit false]
  | None => Run (Ret ()) (set_mixer false None 0 w) [EvMixerQuit true]
  end.

Definition pyttsx3_init : M unit := λ w,
  match fault E (clock w) SysTtsInit with
  | Some e => Run (Raise e) w [EvTtsInit false]
  | None => Run (Ret ()) w [EvTtsInit true]
  end.

Definition engine_say (message : string) : M unit := λ w,
  match fault E (clock w) SysTtsSay with
  | Some e => Run (Raise e) w [EvTtsSay message false]
  | None =>
      Run (Ret ()) (set_tts_queue (tts_queue w ++ [message]) w) [EvTtsSay message true]
  end.

(** [engine.runAndWait]: speaks what is queued, then returns. *)
Definition engine_runAndWait : M unit := λ w,
  match fault E (clock w) SysTtsRunAndWait with
  | Some e => Run (Raise e) w [EvTtsRunAndWait false]
  | None =>
      Run (Ret ()) (set_tts_queue [] w) (map EvSpoken (tts_queue w) ++ [EvTtsRunAndWait true])
  end.

(** [threading.Thread(target=t).start()]: the thread is detached; its body
    ([run_target] below) is not interleaved with the caller here. *)
Definition threading_Thread_start (t : target) : M unit := emit (EvThreadStart t).

End Outside.

(** ** [audio_alerts.py]: class [NotificationController] *)

Record NotificationController := {
  custom_success_sound_path : path;
  custom_warning_sound_path : path;
  custom_error_sound_path : path;
  default_success_sound_path : path;
  default_error_sound_path : path;
  default_warning_sound_path : path
}.

(** [NotificationController.__init__]; the [log] collaborator is the trace. *)
Definition NotificationController_init
    (default_success_sound_path default_error_sound_path
     default_warning_sound_path : path) : NotificationController :=
  {| custom_success_sound_path := os_path_basename default_success_sound_path;
     custom_warning_sound_path := os_path_basename default_warning_sound_path;
     custom_error_sound_path := os_path_basename default_error_sound_path;
     default_success_sound_path := default_success_sound_path;
     default_error_sound_path := default_error_sound_path;
     default_warning_sound_path := default_warning_sound_path |}.

Section Program.
Context (E : env).

Definition alert_msg (self : NotificationController) (message : string) : M unit :=
  pyttsx3_init E;;
  engine_say E message;;
  engine_runAndWait E.

(** The polling loop of [alert_sound] is bounded by [fuel]. *)
Definition alert_sound (fuel : nat) (self : NotificationController)
    (sound_file_path : path) : M bool :=
  try_except
    (pygame_mixer_init E;;
     pygame_mixer_music_load E sound_file_path;;
     pygame_mixer_music_play E;;
     while fuel (pygame_mixer_music_get_busy E) (time_sleep (tenths 1));;
     pygame_mixer_music_stop E;;
     pygame_mixer_quit E;;
     mret true)
    (λ _, mret false).

Definition _alert_success (fuel : nat) (self : NotificationController) : M bool :=
  played ← alert_sound fuel self (custom_success_sound_path self);
  if negb played then alert_sound fuel self (default_success_sound_path self)
  else mret true.

Definition alert_success (self : NotificationController) : M unit :=
  threading_Thread_start Target_alert_success;;
  time_sleep (seconds 1).

Definition alert_warning (self : NotificationController) : M unit :=
  threading_Thread_start Target_alert_warning;;
  time_sleep (seconds 1).

Definition _alert_warning (fuel : nat) (self : NotificationController) : M unit :=
  played ← alert_sound fuel self (custom_warning_sound_path self);
  if negb played then alert_sound fuel self (default_warning_sound_path self);; mret ()
  else mret ().

Definition _alert_error (fuel : nat) (self : NotificationController) : M bool :=
  played ← alert_sound fuel self (custom_error_sound_path self);
  if negb played then alert_sound fuel self (default_error_sound_path self)
  else mret true.

Definition alert_error (self : NotificationController) : M unit :=
  threading_Thread_start Target_alert_error;;
  time_sleep (seconds 1).

(** What a started thread runs; its return value is dropped. *)
Definition run_target (fuel : nat) (self : NotificationController) (t : target) : M unit :=
  match t with
  | Target_alert_success => _alert_success fuel self;; mret ()
  | Target_alert_warning => _alert_warning fuel self
  | Target_alert_error => _alert_error fuel self;; mret ()
  end.

(** ** [re_backuper.py]: [make_re_backup] *)

Definition SRC_DIRECTORY : path := [".."; ".."; "backups"].
Definition DIST_DIRECTORY : path :=
  ["A:"; "minecraft_servers"; "server_tfc_halloween"; "backup"].

(** Lines 74-80: make the destination if it is missing, then list both. *)
Definition snapshot : M (gset string * gset string) :=
  dist_exists ← os_path_exists DIST_DIRECTORY;
  (if negb dist_exists then os_makedirs E DIST_DIRECTORY else mret ());;
  src_listing ← os_listdir E SRC_DIRECTORY;
  dist_listing ← os_listdir E DIST_DIRECTORY;
  mret (set_ src_listing, set_ dist_listing).

(** Lines 84-95: the body of the first [for]. *)
Definition copy_body (dist_files : gset string) (file : string) (was_error : bool)
    : M bool :=
  let src_path := os_path_join SRC_DIRECTORY file in
  let dist_path := os_path_join DIST_DIRECTORY file in
  was_error ←
    (if bool_decide (file ∉ dist_files) then
       log_info ("Copying file: " +:+ file +:+ "...");;
       try_except
         (shutil_copy E src_path dist_path;; mret was_error)
         (λ error,
            log_error ("Failed to copy file: " +:+ file +:+ ", " +:+ exn_str error);;
            log_debug (traceback_format_exc E error);;
            mret true)
     else mret was_error);
  log_info ("File skipped: " +:+ file +:+ "...");;
  mret (was_error : bool).

(** Lines 98-107: the body of the second [for]. *)
Definition remove_body (src_files : gset string) (file : string) (was_error : bool)
    : M bool :=
  let dist_path := os_path_join DIST_DIRECTORY file in
  if bool_decide (file ∉ src_files) then
    log_info ("Removing old file: " +:+ file +:+ "...");;
    try_except
      (os_remove E dist_path;; mret was_error)
      (λ error,
         log_error ("Failed to remove file: " +:+ file +:+ ", " +:+ exn_str error);;
         log_debug (traceback_format_exc E error);;
         mret true)
  else mret was_error.

(** Lines 82-107: the copy phase, then the delete phase. *)
Definition sync_files (src_files dist_files : gset string) : M bool :=
  was_error ← for_in (iter (order E) src_files) (copy_body dist_files) false;
  for_in (iter (order E) dist_files) (remove_body src_files) (was_error : bool).

(** Lines 74-107. *)
Definition make_re_backup_sync : M bool :=
  sets ← snapshot;
  sync_files (fst sets) (snd (sets : gset string * gset string)).

(** Lines 108-112: the alerts, if the flag is set, and the sleep. *)
Definition alert_and_sleep (audio_alert : NotificationController)
    (timeaut_minutes : Z) (was_error : bool) : M unit :=
  (if was_error then
     alert_error audio_alert;;
     alert_msg audio_alert "backup error"
   else mret ());;
  time_sleep (seconds (timeaut_minutes * 60)).

(** Lines 74-112: one turn of the [while True]. *)
Definition make_re_backup_cycle (audio_alert : NotificationController)
    (timeaut_minutes : Z) : M unit :=
  was_error ← make_re_backup_sync;
  alert_and_sleep audio_alert timeaut_minutes (was_error : bool).

(** [make_re_backup]; [fuel] bounds the number of turns observed. *)
Definition make_re_backup (fuel : nat) (timeaut_minutes : Z) : M unit :=
  let audio_alert_path := ["data"; "bad.mp3"] in
  let audio_alert :=
    NotificationController_init audio_alert_path audio_alert_path audio_alert_path in
  while fuel (mret true) (make_re_backup_cycle audio_alert timeaut_minutes).

End Program.

(** ** One pass, told from the snapshot

    The two loops act file by file and no file's turn depends on another's:
    what the pass does can be read off the world [w0] in which the listings
    were taken.  These functions say what is expected; the lemmas below
    prove that the loops do exactly that. *)

Definition no_exn (o : option exn) : bool :=
  match o with
  | None => true
  | Some _ => false
  end.

Section Expected.
Context (E : env) (w0 : world) (src_files dist_files : gset string).

(** The exception [shutil.copy] meets for [file], if any. *)
Definition copy_exn (file : string) : option exn :=
  match fault E (clock w0)
          (SysCopy (os_path_join SRC_DIRECTORY file) (os_path_join DIST_DIRECTORY file)) with
  | Some e => Some e
  | None =>
      match fs w0 !! os_path_join SRC_DIRECTORY file with
      | Some (Regular _) => None
      | Some Directory => Some (Exn "IsADirectoryError" "")
      | None => Some (Exn "FileNotFoundError" "")
      end
  end.

(** The file a copy of [file] creates: same data and mode, new time. *)
Definition copied_file (file : string) : option node :=
  match fs w0 !! os_path_join SRC_DIRECTORY file with
  | Some (Regular f) => Some (Regular (File (data f) (mode f) (clock w0)))
  | _ => None
  end.

Definition copy_pending (file : string) : bool := bool_decide (file ∉ dist_files).

Definition copy_fails (file : string) : bool :=
  copy_pending file && negb (no_exn (copy_exn file)).

Definition copy_effect (m : gmap path node) (file : string) : gmap path node :=
  if copy_pending file then
    match copy_exn file, copied_file file with
    | None, Some nd => <[os_path_join DIST_DIRECTORY file := nd]> m
    | _, _ => m
    end
  else m.

Definition failure_log (what file : string) (e : exn) : list event :=
  [EvLog ERROR (what +:+ file +:+ ", " +:+ exn_str e);
   EvLog DEBUG (traceback_format_exc E e)].

Definition copy_events (file : string) : list event :=
  (if copy_pending file then
     [EvLog INFO ("Copying file: " +:+ file +:+ "...")]
     ++ match copy_exn file with
        | None =>
            [EvCopy (os_path_join SRC_DIRECTORY file) (os_path_join DIST_DIRECTORY file) true]
        | Some e =>
            EvCopy (os_path_join SRC_DIRECTORY file) (os_path_join DIST_DIRECTORY file) false
            :: failure_log "Failed to copy file: " file e
        end
   else [])
  ++ [EvLog INFO ("File skipped: " +:+ file +:+ "...")].

(** The exception [os.remove] meets for [file], if any. *)
Definition remove_exn (file : string) : option exn :=
  match fault E (clock w0) (SysRemove (os_path_join DIST_DIRECTORY file)) with
  | Some e => Some e
  | None =>
      match fs w0 !! os_path_join DIST_DIRECTORY file with
      | Some (Regular _) => None
      | Some Directory => Some (Exn "IsADirectoryError" "")
      | None => Some (Exn "FileNotFoundError" "")
      end
  end.

Definition remove_pending (file : string) : bool := bool_decide (file ∉ src_files).

Definition remove_fails (file : string) : bool :=
  remove_pending file && negb (no_exn (remove_exn file)).

Definition remove_effect (m : gmap path node) (file : string) : gmap path node :=
  if remove_pending file then
    match remove_exn file with
    | None => delete (os_path_join DIST_DIRECTORY file) m
    | Some _ => m
    end
  else m.

Definition remove_events (file : string) : list event :=
  if remove_pending file then
    [EvLog INFO ("Removing old file: " +:+ file +:+ "...")]
    ++ match remove_exn file with
       | None => [EvRemove (os_path_join DIST_DIRECTORY file) true]
       | Some e =>
           EvRemove (os_path_join DIST_DIRECTORY file) false
           :: failure_log "Failed to remove file: " file e
       end
  else [].

(** The destination tree, the error flag and the trace after both loops. *)
Definition expected_fs (m : gmap path node) : gmap path node :=
  foldl remove_effect (foldl copy_effect m (iter (order E) src_files))
        (iter (order E) dist_files).

Definition expected_error : bool :=
  existsb copy_fails (iter (order E) src_files)
  || existsb remove_fails (iter (order E) dist_files).

Definition expected_events : list event :=
  flat_map copy_events (iter (order E) src_files)
  ++ flat_map remove_events (iter (order E) dist_files).

End Expected.

(** [w0] is a world in which both directories exist and list as
    [src_files] and [dist_files]. *)
Definition snapshot_at (w0 : world) (src_files dist_files : gset string) : Prop :=
  fs w0 !! SRC_DIRECTORY = Some Directory
  ∧ fs w0 !! DIST_DIRECTORY = Some Directory
  ∧ src_files = set_ (children SRC_DIRECTORY (fs w0))
  ∧ dist_files = set_ (children DIST_DIRECTORY (fs w0)).

(** Only the file system differs between [w] and [w']. *)
Definition same_but_fs (w w' : world) : Prop := w' = set_fs (λ _, fs w') w.

(** ** Reading a trace *)

Definition is_copy (e : event) : bool :=
  match e with EvCopy _ _ _ => true | _ => false end.

Definition is_remove (e : event) : bool :=
  match e with EvRemove _ _ => true | _ => false end.

(** A copy or a delete that failed. *)
Definition is_failure (e : event) : bool :=
  match e with
  | EvCopy _ _ false | EvRemove _ false => true
  | _ => false
  end.

(** A copy into, or a delete of, the path [p]. *)
Definition touches (p : path) (e : event) : bool :=
  match e with
  | EvCopy _ dst _ => bool_decide (dst = p)
  | EvRemove q _ => bool_decide (q = p)
  | _ => false
  end.

(** The attempts to copy [file], and to delete it. *)
Definition is_copy_of (file : string) (e : event) : bool :=
  match e with
  | EvCopy src dst _ =>
      bool_decide (src = os_path_join SRC_DIRECTORY file
                   ∧ dst = os_path_join DIST_DIRECTORY file)
  | _ => false
  end.

Definition is_remove_of (file : string) (e : event) : bool :=
  match e with
  | EvRemove p _ => bool_decide (p = os_path_join DIST_DIRECTORY file)
  | _ => false
  end.

Definition is_mkdir (e : event) : bool :=
  match e with EvMkdir _ _ => true | _ => false end.

Definition is_listdir (e : event) : bool :=
  match e with EvListdir _ _ => true | _ => false end.

(** What the first lines of a turn may emit. *)
Definition is_prelude (e : event) : bool := is_mkdir e || is_listdir e.

(** An alert: the error sound thread, or anything of the speech engine. *)
Definition is_sound_alert (e : event) : bool :=
  match e with EvThreadStart _ => true | _ => false end.

Definition is_spoken_alert (e : event) : bool :=
  match e with
  | EvTtsInit _ | EvTtsSay _ _ | EvSpoken _ | EvTtsRunAndWait _ => true
  | _ => false
  end.

(** The error sound alert, and the start of a spoken alert. *)
Definition is_error_sound (e : event) : bool :=
  match e with EvThreadStart Target_alert_error => true | _ => false end.

Definition is_speech_attempt (e : event) : bool :=
  match e with EvTtsInit _ => true | _ => false end.

(** What lines 108-112 may emit. *)
Definition is_alert_or_sleep (e : event) : bool :=
  match e with
  | EvSleep _ => true
  | _ => is_sound_alert e || is_spoken_alert e
  end.

(** The first failure of the speech engine at time [c], if any. *)
Definition tts_fault (E : env) (c : Z) : option exn :=
  match fault E c SysTtsInit with
  | Some e => Some e
  | None =>
      match fault E c SysTtsSay with
      | Some e => Some e
      | None => fault E c SysTtsRunAndWait
      end
  end.

(** How long the sound at [p] plays. *)
Definition playing_time (E : env) (w : world) (p : path) : Z :=
  match fs w !! p with
  | Some (Regular f) =>
      match decode E (data f) with
      | Some d => Z.max 0 d
      | None => 0
      end
  | _ => 0
  end.

(** The run [r] from [w] tries [custom] first and plays [default] exactly
    when that attempt returned false. *)
Definition falls_back (E : env) (fuel : nat) (self : NotificationController)
    (custom default : path) (w : world) {A} (r : run A) : Prop :=
  let first := alert_sound E fuel self custom w in
  match res first with
  | Ret false =>
      let second := alert_sound E fuel self default (final first) in
      final r = final second ∧ emitted r = emitted first ++ emitted second
  | _ => final r = final first ∧ emitted r = emitted first
  end.

(** Events that belong to the two loops. *)
Definition is_sync (e : event) : bool :=
  match e with
  | EvCopy _ _ _ | EvRemove _ _ | EvLog _ _ => true
  | _ => false
  end.

(** How many events of [t] satisfy [P]. *)
Fixpoint count (P : event → bool) (t : list event) : nat :=
  match t with
  | [] => 0%nat
  | e :: t' => ((if P e then 1 else 0) + count P t')%nat
  end.

(** What [makedirs] may have done to the world, whatever its outcome. *)
Definition makedirs_effect (p : path) (w : world) (r : run unit) : Prop :=
  res r ≠ Diverge
  ∧ Forall (λ e, is_mkdir e) (emitted r)
  ∧ same_but_fs w (final r)
  ∧ (∀ q, fs (final r) !! q = fs w !! q
          ∨ (fs w !! q = None ∧ fs (final r) !! q = Some Directory
             ∧ q `prefix_of` p ∧ q ≠ []))
  ∧ (fs_wf (fs w) → fs_wf (fs (final r)))
  ∧ (res r = Ret () → fs (final r) !! p = Some Directory).

(** [w'] is [w] with some missing ancestors of [p] (or [p] itself) made. *)
Definition grows (p : path) (w w' : world) : Prop :=
  same_but_fs w w'
  ∧ (∀ q, fs w' !! q = fs w !! q
          ∨ (fs w !! q = None ∧ fs w' !! q = Some Directory
             ∧ q `prefix_of` p ∧ q ≠ []))
  ∧ (fs_wf (fs w) → fs_wf (fs w')).

(** Whatever its outcome, [m] ends, moves the world along [R] and emits
    only events in [P]. *)
Definition within (R : world → world → Prop) (P : event → Prop) {A} (m : M A) : Prop :=
  ∀ w, R w (final (m w)) ∧ Forall P (emitted (m w)) ∧ res (m w) ≠ Diverge.

(** The copies of a pass leave at the destination the very file of the
    source: data, permission bits and modification time. *)
Definition copies_preserve_metadata (E : env) (w : world) : Prop :=
  ∀ src dst,
    EvCopy src dst true ∈ emitted (make_re_backup_sync E w) →
    fs (final (make_re_backup_sync E w)) !! dst = fs w !! src.

(** ** Example environments and worlds *)

Module Examples.

(** Nothing fails; any non-empty data plays for three tenths of a second. *)
Definition quiet : env :=
  Env (λ _ _, None) (λ d, if decide (d = "") then None else Some 3)
      exn_class canonical_order.

(** The destination disk is full: every copy fails. *)
Definition disk_full : env :=
  Env (λ _ s, match s with
              | SysCopy _ _ => Some (Exn "OSError" "No space left on device")
              | _ => None
              end)
      (λ d, if decide (d = "") then None else Some 3)
      exn_class canonical_order.

(** The disk is full and the speech engine cannot start. *)
Definition disk_full_mute : env :=
  Env (λ _ s, match s with
              | SysCopy _ _ => Some (Exn "OSError" "No space left on device")
              | SysTtsInit => Some (Exn "RuntimeError" "no speech driver")
              | _ => None
              end)
      (λ d, if decide (d = "") then None else Some 3)
      exn_class canonical_order.

(** The destination cannot be made. *)
Definition read_only : env :=
  Env (λ _ s, match s with
              | SysMkdir _ => Some (Exn "PermissionError" "read-only file system")
              | _ => None
              end)
      (λ d, if decide (d = "") then None else Some 3)
      exn_class canonical_order.

Definition a_txt : file := File "alpha" 420 100.
Definition b_txt : file := File "beta" 420 200.
Definition b_old : file := File "beta, as it was" 384 150.
Definition c_txt : file := File "gamma" 420 300.
Definition bad_mp3 : file := File "ID3" 420 50.

(** The source holds [a.txt] and [b.txt]; the default sound is in [data]. *)
Definition source_tree : gmap path node :=
  <[ [".."] := Directory ]> (
  <[ [".."; ".."] := Directory ]> (
  <[ SRC_DIRECTORY := Directory ]> (
  <[ os_path_join SRC_DIRECTORY "a.txt" := Regular a_txt ]> (
  <[ os_path_join SRC_DIRECTORY "b.txt" := Regular b_txt ]> (
  <[ ["data"] := Directory ]> (
  <[ ["data"; "bad.mp3"] := Regular bad_mp3 ]> ∅)))))).

(** The destination holds an older [b.txt], and [c.txt]. *)
Definition both_trees : gmap path node :=
  <[ ["A:"] := Directory ]> (
  <[ ["A:"; "minecraft_servers"] := Directory ]> (
  <[ ["A:"; "minecraft_servers"; "server_tfc_halloween"] := Directory ]> (
  <[ DIST_DIRECTORY := Directory ]> (
  <[ os_path_join DIST_DIRECTORY "b.txt" := Regular b_old ]> (
  <[ os_path_join DIST_DIRECTORY "c.txt" := Regular c_txt ]> source_tree))))).

(** The destination holds what the source holds. *)
Definition synced_trees : gmap path node :=
  <[ ["A:"] := Directory ]> (
  <[ ["A:"; "minecraft_servers"] := Directory ]> (
  <[ ["A:"; "minecraft_servers"; "server_tfc_halloween"] := Directory ]> (
  <[ DIST_DIRECTORY := Directory ]> (
  <[ os_path_join DIST_DIRECTORY "a.txt" := Regular a_txt ]> (
  <[ os_path_join DIST_DIRECTORY "b.txt" := Regular b_old ]> source_tree))))).

Definition at_noon (m : gmap path node) : world := World m 432000 false None 0 [].

(** No destination yet. *)
Definition first_run : world := at_noon source_tree.

(** The scenario of the specification. *)
Definition scenario : world := at_noon both_trees.

Definition in_sync : world := at_noon synced_trees.

Definition controller : NotificationController :=
  NotificationController_init ["data"; "bad.mp3"] ["data"; "bad.mp3"] ["data"; "bad.mp3"].

Definition scenario_listings : list event :=
  [EvListdir SRC_DIRECTORY true; EvListdir DIST_DIRECTORY true].

End Examples.


(** An environment in which the mixer never fails. *)
Definition mixer_works (E : env) : Prop :=
  ∀ c, fault E c SysMixerInit = None
       ∧ (∀ p, fault E c (SysMusicLoad p) = None)
       ∧ fault E c SysMusicPlay = None
       ∧ fault E c SysMusicGetBusy = None
       ∧ fault E c SysMusicStop = None
       ∧ fault E c SysMixerQuit = None.

(** The controller [make_re_backup] builds. *)
Definition make_re_backup_controller : NotificationController :=
  NotificationController_init ["data"; "bad.mp3"] ["data"; "bad.mp3"] ["data"; "bad.mp3"].

(** Events of [alert_sound]: a started playback, a released mixer, a wait
    of the polling loop. *)
Definition is_play (e : event) : bool :=
  match e with EvMusicPlay true => true | _ => false end.

Definition is_quit (e : event) : bool :=
  match e with EvMixerQuit true => true | _ => false end.

Definition is_poll (e : event) : bool :=
  match e with EvSleep _ => true | _ => false end.

(** The two sounds a thread started for [t] tries, in this order. *)
Definition custom_path (self : NotificationController) (t : target) : path :=
  match t with
  | Target_alert_success => custom_success_sound_path self
  | Target_alert_warning => custom_warning_sound_path self
  | Target_alert_error => custom_error_sound_path self
  end.

Definition default_path (self : NotificationController) (t : target) : path :=
  match t with
  | Target_alert_success => default_success_sound_path self
  | Target_alert_warning => default_warning_sound_path self
  | Target_alert_error => default_error_sound_path self
  end.

(** ** More example worlds *)

Module Nested.

(** The source holds a subdirectory [old] next to [a.txt] and [b.txt]; the
    destination holds a subdirectory [tmp] next to [a.txt] and [b.txt]. *)
Definition trees : gmap path node :=
  <[ os_path_join SRC_DIRECTORY "old" := Directory ]> (
  <[ os_path_join DIST_DIRECTORY "tmp" := Directory ]> Examples.synced_trees).

Definition world_ : world := Examples.at_noon trees.

Definition listings : list event :=
  [EvListdir SRC_DIRECTORY true; EvListdir DIST_DIRECTORY true].

End Nested.

(** * Verification *)

(** ** Paths and listings *)

Lemma child_name_Some (d q : path) (n : string) : child_name d q = Some n ↔ q = d ++ [n].
Proof.
  revert q. induction d as [|x d IH]; intros q; simpl.
  - destruct q as [|y [|z q]]; split; intros H; try discriminate; congruence.
  - destruct q as [|y q]; [split; intros H; discriminate|].
    case_decide as Hxy.
    + subst y. rewrite IH. split; congruence.
    + split; [discriminate|]. intros [= ? _]. congruence.
Qed.

Lemma elem_of_children (d : path) (m : gmap path node) (n : string) :
  n ∈ children d m ↔ is_Some (m !! (d ++ [n])).
Proof.
  unfold children. rewrite list_elem_of_omap. split.
  - intros (q & Hq & Hn). apply child_name_Some in Hn. subst q.
    by apply elem_of_dom, elem_of_elements.
  - intros Hs. exists (d ++ [n]). split.
    + by apply elem_of_elements, elem_of_dom.
    + by apply child_name_Some.
Qed.

Lemma elem_of_set_children (d : path) (m : gmap path node) (n : string) :
  n ∈ set_ (children d m) ↔ is_Some (m !! (d ++ [n])).
Proof. unfold set_. rewrite elem_of_list_to_set. apply elem_of_children. Qed.

Lemma os_path_basename_length (p : path) : (length (os_path_basename p) ≤ 1)%nat.
Proof. unfold os_path_basename. destruct (last p); simpl; lia. Qed.

Lemma os_path_join_inj (d : path) (n n' : string) : os_path_join d n = os_path_join d n' → n = n'.
Proof. unfold os_path_join. intros H. apply app_inv_head in H. congruence. Qed.

Lemma src_not_dist (n n' : string) :
  os_path_join SRC_DIRECTORY n ≠ os_path_join DIST_DIRECTORY n'.
Proof. discriminate. Qed.

Lemma dist_not_child (n : string) : DIST_DIRECTORY ≠ os_path_join DIST_DIRECTORY n.
Proof. discriminate. Qed.

(** Iteration visits exactly the elements, each once. *)
Lemma elem_of_iter (o : set_order) (X : gset string) (n : string) : n ∈ iter o X ↔ n ∈ X.
Proof. rewrite (iter_perm o X). apply elem_of_elements. Qed.

Lemma NoDup_iter (o : set_order) (X : gset string) : NoDup (iter o X).
Proof. rewrite (iter_perm o X). apply NoDup_elements. Qed.

(** ** The two loops do what is expected *)

Lemma set_fs_id (w : world) : set_fs (λ m, m) w = w.
Proof. by destruct w. Qed.

Lemma orb_false_r' (b : bool) : b || false = b.
Proof. by destruct b. Qed.

Section Loops.
Context (E : env) (w0 : world) (src_files dist_files : gset string).

Lemma copy_body_spec (file : string) (b : bool) (w : world) :
  clock w = clock w0 →
  fs w !! os_path_join SRC_DIRECTORY file = fs w0 !! os_path_join SRC_DIRECTORY file →
  fs w !! DIST_DIRECTORY = Some Directory →
  (file ∉ dist_files → fs w !! os_path_join DIST_DIRECTORY file = None) →
  copy_body E dist_files file b w
  = Run (Ret (b || copy_fails E w0 dist_files file))
        (set_fs (λ m, copy_effect E w0 dist_files m file) w)
        (copy_events E w0 dist_files file).
Proof.
  intros Hclock Hsrc Hdist Hfree.
  unfold copy_body, copy_fails, copy_effect, copy_events, copy_pending,
    copy_exn, copied_file.
  case_bool_decide as Hin; simpl.
  - specialize (Hfree Hin).
    unfold mbind, M_bind, mret, M_ret, try_except, log_info, log_error, log_debug,
      emit, shutil_copy.
    rewrite Hclock, Hsrc, Hfree. simpl.
    destruct (fault E (clock w0) _) as [e|]; simpl.
    { by rewrite set_fs_id, orb_true_r. }
    destruct (fs w0 !! os_path_join SRC_DIRECTORY file) as [[f|]|]; simpl;
      try by rewrite set_fs_id, orb_true_r.
    rewrite Hfree. simpl.
    rewrite bool_decide_eq_true_2 by (right; exact Hdist).
    by rewrite orb_false_r'.
  - unfold mbind, M_bind, mret, M_ret, log_info, emit. simpl.
    by rewrite set_fs_id, orb_false_r'.
Qed.

Lemma remove_body_spec (file : string) (b : bool) (w : world) :
  clock w = clock w0 →
  fs w !! os_path_join DIST_DIRECTORY file = fs w0 !! os_path_join DIST_DIRECTORY file →
  remove_body E src_files file b w
  = Run (Ret (b || remove_fails E w0 src_files file))
        (set_fs (λ m, remove_effect E w0 src_files m file) w)
        (remove_events E w0 src_files file).
Proof.
  intros Hclock Hdist.
  unfold remove_body, remove_fails, remove_effect, remove_events, remove_pending,
    remove_exn.
  case_bool_decide as Hin; simpl.
  - unfold mbind, M_bind, mret, M_ret, try_except, log_info, log_error, log_debug,
      emit, os_remove.
    rewrite Hclock, Hdist. simpl.
    destruct (fault E (clock w0) _) as [e|]; simpl.
    { by rewrite set_fs_id, orb_true_r. }
    destruct (fs w0 !! os_path_join DIST_DIRECTORY file) as [[f|]|]; simpl;
      try by rewrite set_fs_id, orb_true_r.
    by rewrite orb_false_r'.
  - unfold mret, M_ret. by rewrite set_fs_id, orb_false_r'.
Qed.

Lemma copy_exn_None (file : string) :
  copy_exn E w0 file = None →
  ∃ f, fs w0 !! os_path_join SRC_DIRECTORY file = Some (Regular f)
       ∧ copied_file w0 file = Some (Regular (File (data f) (mode f) (clock w0))).
Proof.
  unfold copy_exn, copied_file. destruct (fault E _ _); [done|].
  destruct (fs w0 !! os_path_join SRC_DIRECTORY file) as [[f|]|]; try done.
  intros _. by exists f.
Qed.

Lemma copy_effect_lookup_ne (m : gmap path node) (file : string) (p : path) :
  p ≠ os_path_join DIST_DIRECTORY file →
  copy_effect E w0 dist_files m file !! p = m !! p.
Proof.
  intros Hne. unfold copy_effect.
  destruct (copy_pending dist_files file); [|done].
  destruct (copy_exn E w0 file); [done|].
  destruct (copied_file w0 file); [|done].
  by rewrite lookup_insert_ne.
Qed.

Lemma remove_effect_lookup_ne (m : gmap path node) (file : string) (p : path) :
  p ≠ os_path_join DIST_DIRECTORY file →
  remove_effect E w0 src_files m file !! p = m !! p.
Proof.
  intros Hne. unfold remove_effect.
  destruct (remove_pending src_files file); [|done].
  destruct (remove_exn E w0 file); [done|].
  by rewrite lookup_delete_ne.
Qed.

Lemma copy_loop_spec (l : list string) :
  NoDup l → ∀ (b : bool) (w : world),
  clock w = clock w0 →
  (∀ n, fs w !! os_path_join SRC_DIRECTORY n = fs w0 !! os_path_join SRC_DIRECTORY n) →
  fs w !! DIST_DIRECTORY = Some Directory →
  (∀ n, n ∈ l → n ∉ dist_files → fs w !! os_path_join DIST_DIRECTORY n = None) →
  for_in l (copy_body E dist_files) b w
  = Run (Ret (b || existsb (copy_fails E w0 dist_files) l))
        (set_fs (λ m, foldl (copy_effect E w0 dist_files) m l) w)
        (flat_map (copy_events E w0 dist_files) l).
Proof.
  induction 1 as [|n l Hn Hnd IH]; intros b w Hclock Hsrc Hdist Hfree; simpl.
  - unfold mret, M_ret. by rewrite set_fs_id, orb_false_r'.
  - unfold mbind, M_bind.
    rewrite copy_body_spec; [|done|done|done|].
    2:{ intros Hin. apply Hfree; [left|done]. }
    rewrite IH; simpl.
    + by rewrite orb_assoc.
    + done.
    + intros x. rewrite copy_effect_lookup_ne by apply src_not_dist. apply Hsrc.
    + rewrite copy_effect_lookup_ne by apply dist_not_child. done.
    + intros x Hx Hxd. rewrite copy_effect_lookup_ne.
      * apply Hfree; [by right|done].
      * intros Heq. apply os_path_join_inj in Heq. by subst x.
Qed.

Lemma remove_loop_spec (l : list string) :
  NoDup l → ∀ (b : bool) (w : world),
  clock w = clock w0 →
  (∀ n, n ∈ l →
        fs w !! os_path_join DIST_DIRECTORY n = fs w0 !! os_path_join DIST_DIRECTORY n) →
  for_in l (remove_body E src_files) b w
  = Run (Ret (b || existsb (remove_fails E w0 src_files) l))
        (set_fs (λ m, foldl (remove_effect E w0 src_files) m l) w)
        (flat_map (remove_events E w0 src_files) l).
Proof.
  induction 1 as [|n l Hn Hnd IH]; intros b w Hclock Hsame; simpl.
  - unfold mret, M_ret. by rewrite set_fs_id, orb_false_r'.
  - unfold mbind, M_bind.
    rewrite remove_body_spec; [|done|by apply Hsame; left].
    rewrite IH; simpl.
    + by rewrite orb_assoc.
    + done.
    + intros x Hx. rewrite remove_effect_lookup_ne.
      * apply Hsame. by right.
      * intros Heq. apply os_path_join_inj in Heq. by subst x.
Qed.

(** Where the copies land. *)
Lemma foldl_copy_lookup_ne (l : list string) (m : gmap path node) (p : path) :
  (∀ n, n ∈ l → n ∉ dist_files → copy_exn E w0 n = None →
        p ≠ os_path_join DIST_DIRECTORY n) →
  foldl (copy_effect E w0 dist_files) m l !! p = m !! p.
Proof.
  revert m. induction l as [|x l IH]; intros m Hp; simpl; [done|].
  rewrite IH by (intros n Hn; apply Hp; by right).
  unfold copy_effect, copy_pending. case_bool_decide as Hx; [|done].
  destruct (copy_exn E w0 x) eqn:Hexn; [done|].
  destruct (copied_file w0 x); [|done].
  rewrite lookup_insert_ne; [done|].
  intros Heq. by apply (Hp x); [left| | |].
Qed.

Lemma foldl_copy_lookup (l : list string) (m : gmap path node) (n : string) :
  n ∈ l → n ∉ dist_files → copy_exn E w0 n = None →
  foldl (copy_effect E w0 dist_files) m l !! os_path_join DIST_DIRECTORY n
  = copied_file w0 n.
Proof.
  intros Hn Hd Hexn. revert m. induction l as [|x l IH]; intros m; simpl.
  - by apply elem_of_nil in Hn.
  - destruct (decide (n ∈ l)) as [Hl|Hl]; [by apply IH|].
    apply elem_of_cons in Hn as [->|?]; [|done].
    rewrite foldl_copy_lookup_ne.
    + unfold copy_effect, copy_pending.
      rewrite bool_decide_eq_true_2 by done. rewrite Hexn.
      destruct (copy_exn_None x Hexn) as (f & _ & ->).
      by rewrite lookup_insert_eq.
    + intros y Hy _ _ Heq. apply os_path_join_inj in Heq. by subst y.
Qed.

(** What the deletes take away. *)
Lemma foldl_remove_lookup_ne (l : list string) (m : gmap path node) (p : path) :
  (∀ n, n ∈ l → n ∉ src_files → remove_exn E w0 n = None →
        p ≠ os_path_join DIST_DIRECTORY n) →
  foldl (remove_effect E w0 src_files) m l !! p = m !! p.
Proof.
  revert m. induction l as [|x l IH]; intros m Hp; simpl; [done|].
  rewrite IH by (intros n Hn; apply Hp; by right).
  unfold remove_effect, remove_pending. case_bool_decide as Hx; [|done].
  destruct (remove_exn E w0 x) eqn:Hexn; [done|].
  rewrite lookup_delete_ne; [done|].
  intros Heq. by apply (Hp x); [left| | |].
Qed.

Lemma foldl_remove_lookup (l : list string) (m : gmap path node) (n : string) :
  n ∈ l → n ∉ src_files → remove_exn E w0 n = None →
  foldl (remove_effect E w0 src_files) m l !! os_path_join DIST_DIRECTORY n = None.
Proof.
  intros Hn Hd Hexn. revert m. induction l as [|x l IH]; intros m; simpl.
  - by apply elem_of_nil in Hn.
  - destruct (decide (n ∈ l)) as [Hl|Hl]; [by apply IH|].
    apply elem_of_cons in Hn as [->|?]; [|done].
    rewrite foldl_remove_lookup_ne.
    + unfold remove_effect, remove_pending.
      rewrite bool_decide_eq_true_2 by done. rewrite Hexn.
      by rewrite lookup_delete_eq.
    + intros y Hy _ _ Heq. apply os_path_join_inj in Heq. by subst y.
Qed.

End Loops.

(** ** [os.makedirs] *)

Lemma same_but_fs_refl (w : world) : same_but_fs w w.
Proof. unfold same_but_fs. by destruct w. Qed.

Lemma same_but_fs_set (w : world) (f : gmap path node → gmap path node) :
  same_but_fs w (set_fs f w).
Proof. unfold same_but_fs. by destruct w. Qed.

Lemma same_but_fs_trans (w1 w2 w3 : world) :
  same_but_fs w1 w2 → same_but_fs w2 w3 → same_but_fs w1 w3.
Proof.
  unfold same_but_fs. intros H12 H23. rewrite H23, H12.
  by destruct w1.
Qed.

Lemma same_but_fs_clock (w w' : world) : same_but_fs w w' → clock w' = clock w.
Proof. unfold same_but_fs. intros ->. by destruct w. Qed.

Section Makedirs.
Context (E : env).

Lemma os_mkdir_cases (p : path) (w : world) :
  (os_mkdir E p w = Run (Ret ()) (set_fs (insert p Directory) w) [EvMkdir p true]
   ∧ p ≠ [] ∧ fs w !! p = None
   ∧ (os_path_dirname p = [] ∨ fs w !! os_path_dirname p = Some Directory))
  ∨ (∃ e, os_mkdir E p w = Run (Raise e) w [EvMkdir p false]).
Proof.
  unfold os_mkdir. destruct (fault E _ _) as [e|]; [right; by eexists|].
  case_bool_decide as Hnil; [right; by eexists|].
  case_bool_decide as Hex; [right; by eexists|].
  case_bool_decide as Hpar; [|right; by eexists].
  left. repeat split; try done. by apply eq_None_not_Some.
Qed.

Lemma fs_wf_insert_dir (m : gmap path node) (p : path) :
  fs_wf m → m !! p = None →
  os_path_dirname p = [] ∨ m !! os_path_dirname p = Some Directory →
  fs_wf (<[p := Directory]> m).
Proof.
  intros Hwf Hfree Hpar. unfold fs_wf in *.
  apply map_Forall_insert_2.
  - destruct Hpar as [?|Hpar]; [by left|right].
    rewrite lookup_insert_ne; [done|]. intros Heq. rewrite <- Heq in Hpar. congruence.
  - intros q x Hq. destruct (Hwf q x Hq) as [?|Hd]; [by left|right].
    rewrite lookup_insert_ne; [done|]. intros Heq. rewrite <- Heq in Hd. congruence.
Qed.

Lemma os_mkdir_effect (p : path) (w : world) : makedirs_effect p w (os_mkdir E p w).
Proof.
  destruct (os_mkdir_cases p w) as [(-> & Hnil & Hfree & Hpar)|[e ->]];
    unfold makedirs_effect; cbn [res final emitted].
  - split_and!.
    + done.
    + by repeat constructor.
    + apply same_but_fs_set.
    + intros q. destruct (decide (q = p)) as [->|Hne].
      * right. simpl. rewrite lookup_insert_eq. by split_and!.
      * left. simpl. by rewrite lookup_insert_ne.
    + intros Hwf. by apply fs_wf_insert_dir.
    + intros _. simpl. by rewrite lookup_insert_eq.
  - split_and!.
    + done.
    + by repeat constructor.
    + apply same_but_fs_refl.
    + by left.
    + done.
    + done.
Qed.

Lemma prefix_snoc_mono (q p : path) (n : string) : q `prefix_of` p → q `prefix_of` p ++ [n].
Proof. intros Hq. by apply prefix_app_r. Qed.

Lemma makedirs_rev_effect (rname : list string) (w : world) :
  makedirs_effect (rev rname) w (makedirs_rev E rname w).
Proof.
  revert w. induction rname as [|tail rhead IH]; intros w.
  - apply os_mkdir_effect.
  - cbn [makedirs_rev]. unfold mbind, M_bind, os_path_exists, get.
    set (p := rev (tail :: rhead)).
    assert (Hp : p = rev rhead ++ [tail]) by done.
    destruct (bool_decide (rev rhead ≠ []) && negb (bool_decide (is_Some (fs w !! rev rhead))))
      eqn:Hcond; simpl.
    + unfold try_except_pass, try_except.
      specialize (IH w). destruct (makedirs_rev E rhead w) as [r1 w1 t1].
      destruct IH as (Hdiv & Hev & Hsame & Hframe & Hwf & _). simpl in *.
      assert (Hstep : ∀ r, makedirs_effect p w1 r →
                makedirs_effect p w (Run (res r) (final r) (t1 ++ emitted r))).
      { intros r (Hdiv' & Hev' & Hsame' & Hframe' & Hwf' & Hdir').
        unfold makedirs_effect; simpl. split_and!; try done.
        - by apply Forall_app.
        - by eapply same_but_fs_trans.
        - intros q. destruct (Hframe' q) as [Heq|(Hnone & Hdir & Hpre & Hne)].
          + rewrite Heq. destruct (Hframe q) as [?|(? & ? & Hpre & ?)]; [by left|right].
            split_and!; try done. rewrite Hp. by apply prefix_snoc_mono.
          + destruct (Hframe q) as [Heq|(? & Hd & _)]; [|congruence].
            right. by rewrite <- Heq.
        - intros ?. by apply Hwf', Hwf. }
      destruct r1 as [[]|e|]; [| |done].
      * specialize (Hstep _ (os_mkdir_effect p w1)).
        simpl. destruct (os_mkdir E p w1) as [r2 w2 t2]. by simpl in *.
      * simpl. case_decide as Hcls; simpl.
        -- specialize (Hstep _ (os_mkdir_effect p w1)).
           destruct (os_mkdir E p w1) as [r2 w2 t2]. simpl in *.
           by rewrite app_nil_r.
        -- unfold makedirs_effect; simpl. rewrite app_nil_r.
           split_and!; try done.
           intros q. destruct (Hframe q) as [?|(? & ? & Hpre & ?)]; [by left|right].
           split_and!; try done. rewrite Hp. by apply prefix_snoc_mono.
    + pose proof (os_mkdir_effect p w) as Hm.
      destruct (os_mkdir E p w) as [r2 w2 t2]. by simpl in *.
Qed.

Lemma os_makedirs_effect (p : path) (w : world) :
  makedirs_effect p w (os_makedirs E p w).
Proof.
  unfold os_makedirs. rewrite <- (rev_involutive p) at 1. apply makedirs_rev_effect.
Qed.

End Makedirs.

Lemma prefix_snoc_proper (q p : path) (n : string) :
  q `prefix_of` p ++ [n] → q ≠ p ++ [n] → q `prefix_of` p.
Proof.
  intros [k Hk] Hne. destruct k as [|c k _] using rev_ind.
  - rewrite app_nil_r in Hk. by subst q.
  - rewrite app_assoc in Hk. apply app_inj_tail in Hk as [-> _]. by exists k.
Qed.

(** In a well-formed tree every ancestor of an entry is a directory. *)
Lemma fs_wf_ancestors (m : gmap path node) (p q : path) :
  fs_wf m → is_Some (m !! p) → q `prefix_of` p → q ≠ [] → q ≠ p →
  m !! q = Some Directory.
Proof.
  intros Hwf. revert q.
  induction p as [|n p IH] using rev_ind; intros q Hp Hpre Hnil Hne.
  - by apply prefix_nil_inv in Hpre.
  - apply prefix_snoc_proper in Hpre; [|done].
    destruct Hp as [x Hx].
    destruct (Hwf _ _ Hx) as [Hd|Hd];
      unfold os_path_dirname in Hd; rewrite removelast_last in Hd.
    + subst p. by apply prefix_nil_inv in Hpre.
    + destruct (decide (q = p)) as [->|Hqp]; [done|].
      apply IH; try done.
Qed.


(** ** Reasoning about runs *)

Lemma bind_run {A B} (m : M A) (k : A → M B) (w : world) :
  (m ≫= k) w
  = match res (m w) with
    | Ret a =>
        Run (res (k a (final (m w)))) (final (k a (final (m w))))
            (emitted (m w) ++ emitted (k a (final (m w))))
    | Raise e => Run (Raise e) (final (m w)) (emitted (m w))
    | Diverge => Run Diverge (final (m w)) (emitted (m w))
    end.
Proof.
  unfold mbind, M_bind. destruct (m w) as [[a|e|] w1 t1]; simpl; [|done|done].
  by destruct (k a w1).
Qed.

(** What [m] emits comes first. *)
Lemma bind_emitted {A B} (m : M A) (k : A → M B) (w : world) :
  ∃ rest, emitted ((m ≫= k) w) = emitted (m w) ++ rest.
Proof.
  rewrite bind_run. destruct (res (m w)); simpl;
    [by eexists|exists []; by rewrite app_nil_r..].
Qed.

Lemma bind_Ret_inv {A B} (m : M A) (k : A → M B) (w w' : world) (b : B)
    (t : list event) :
  (m ≫= k) w = Run (Ret b) w' t →
  ∃ a w1 t1 t2,
    m w = Run (Ret a) w1 t1 ∧ k a w1 = Run (Ret b) w' t2 ∧ t = t1 ++ t2.
Proof.
  rewrite bind_run. destruct (m w) as [[a|e|] w1 t1]; simpl; [|done|done].
  destruct (k a w1) as [r2 w2 t2] eqn:Hk; simpl. intros H.
  injection H as Hr Hw Ht. subst r2 w2 t.
  exists a, w1, t1, t2. by split_and!.
Qed.

Lemma try_except_run {A} (body : M A) (handler : exn → M A) (w : world) :
  try_except body handler w
  = match res (body w) with
    | Raise e =>
        Run (res (handler e (final (body w)))) (final (handler e (final (body w))))
            (emitted (body w) ++ emitted (handler e (final (body w))))
    | _ => body w
    end.
Proof.
  unfold try_except. destruct (body w) as [[a|e|] w1 t1]; simpl; [done| |done].
  by destruct (handler e w1).
Qed.

Section Within.
Context (R : world → world → Prop) `{!PreOrder R} (P : event → Prop).

Lemma within_ret {A} (a : A) : within R P (mret a).
Proof. intros w. by split_and!. Qed.

Lemma within_get {A} (f : world → A) : within R P (get f).
Proof. intros w. by split_and!. Qed.

Lemma within_bind {A B} (m : M A) (k : A → M B) :
  within R P m → (∀ a, within R P (k a)) → within R P (m ≫= k).
Proof.
  intros Hm Hk w. rewrite bind_run. destruct (Hm w) as (HR & HP & Hd).
  destruct (res (m w)) as [a|e|]; simpl; [|done|done].
  destruct (Hk a (final (m w))) as (HR' & HP' & Hd').
  split_and!; [by etrans|by apply Forall_app|done].
Qed.

End Within.

Global Instance same_but_fs_preorder : PreOrder same_but_fs.
Proof.
  split; [intros w; apply same_but_fs_refl|intros ???; apply same_but_fs_trans].
Qed.

Global Instance grows_preorder (p : path) : PreOrder (grows p).
Proof.
  split.
  - intros w. split_and!; [apply same_but_fs_refl|by left|done].
  - intros w1 w2 w3 (Hs & Hf & Hw) (Hs' & Hf' & Hw'). split_and!.
    + by etrans.
    + intros q. destruct (Hf' q) as [Heq|(Hnone & Hdir & Hpre & Hne)].
      * rewrite Heq. apply Hf.
      * destruct (Hf q) as [Heq|(? & Hd & _)]; [|congruence].
        right. by rewrite <- Heq.
    + intros ?. by apply Hw', Hw.
Qed.

(** ** The snapshot *)

Section Snapshot.
Context (E : env).

Lemma os_listdir_cases (p : path) (w : world) :
  (os_listdir E p w = Run (Ret (children p (fs w))) w [EvListdir p true]
   ∧ fs w !! p = Some Directory)
  ∨ (∃ e, os_listdir E p w = Run (Raise e) w [EvListdir p false]).
Proof.
  unfold os_listdir. destruct (fault E _ _) as [e|]; [right; by eexists|].
  destruct (fs w !! p) as [[f|]|]; [right; by eexists|by left|right; by eexists].
Qed.

Lemma os_makedirs_within (p : path) :
  within (grows p) (λ e, is_prelude e) (os_makedirs E p).
Proof.
  intros w. destruct (os_makedirs_effect E p w) as (Hd & Hev & Hs & Hf & Hw & _).
  unfold grows. split_and!; [exact Hs|exact Hf|exact Hw| |exact Hd].
  eapply Forall_impl; [exact Hev|]. intros e He. unfold is_prelude.
  apply orb_True. by left.
Qed.

Lemma os_listdir_within (d p : path) :
  within (grows d) (λ e, is_prelude e) (os_listdir E p).
Proof.
  intros w. destruct (os_listdir_cases p w) as [[-> _]|[e ->]]; simpl;
    (split_and!; [reflexivity|by repeat constructor|done]).
Qed.

(** Whatever happens, the first lines only make directories and list. *)
Lemma snapshot_within :
  within (grows DIST_DIRECTORY) (λ e, is_prelude e) (snapshot E).
Proof.
  unfold snapshot.
  apply within_bind; [apply _|apply within_get; apply _|]. intros ex.
  apply within_bind; [apply _| |].
  { destruct (negb ex); [apply os_makedirs_within|apply within_ret; apply _]. }
  intros _. apply within_bind; [apply _|apply os_listdir_within|]. intros l.
  apply within_bind; [apply _|apply os_listdir_within|]. intros l'.
  apply within_ret; apply _.
Qed.

(** When the listings are taken, they are those of the final world. *)
Lemma snapshot_Ret (w w0 : world) (S D : gset string) (t0 : list event) :
  snapshot E w = Run (Ret (S, D)) w0 t0 → snapshot_at w0 S D.
Proof.
  unfold snapshot. intros H.
  apply bind_Ret_inv in H as (ex & w1 & t1 & t1' & _ & H & _).
  apply bind_Ret_inv in H as (? & w2 & t2 & t2' & _ & H & _).
  apply bind_Ret_inv in H as (l & w3 & t3 & t3' & Hsrc & H & _).
  apply bind_Ret_inv in H as (l' & w4 & t4 & t4' & Hdist & H & _).
  injection H as <- <- <- _.
  destruct (os_listdir_cases SRC_DIRECTORY w2) as [[Hl Hs]|[e Hl]];
    rewrite Hl in Hsrc; [|done]. injection Hsrc as <- <- _.
  destruct (os_listdir_cases DIST_DIRECTORY w2) as [[Hl' Hd]|[e Hl']];
    rewrite Hl' in Hdist; [|done]. injection Hdist as <- <- _.
  by unfold snapshot_at.
Qed.

End Snapshot.

(** Closes a goal from equations between joined paths. *)
Ltac join_cases :=
  repeat match goal with
         | H : _ ∧ _ |- _ => destruct H
         | H : os_path_join ?d _ = os_path_join ?d _ |- _ =>
             apply os_path_join_inj in H
         end;
  subst; naive_solver.

(** Case analysis on membership in an explicit list. *)
Ltac elem_cases H :=
  repeat first
    [ apply elem_of_nil in H; destruct H
    | apply elem_of_cons in H as [H|H]; [try discriminate H|]
    | apply elem_of_app in H as [H|H] ].

(** ** Counting events *)

Lemma count_app (P : event → bool) (t1 t2 : list event) :
  count P (t1 ++ t2) = (count P t1 + count P t2)%nat.
Proof. induction t1 as [|e t1 IH]; simpl; [done|]. rewrite IH. lia. Qed.

Lemma count_zero_iff (P : event → bool) (t : list event) :
  count P t = 0%nat ↔ ∀ e, e ∈ t → P e = false.
Proof.
  induction t as [|x t IH]; simpl.
  - split; [|done]. intros _ e He. by apply elem_of_nil in He.
  - split.
    + intros H e He. apply elem_of_cons in He as [->|He].
      * destruct (P x); [lia|done].
      * apply IH; [lia|done].
    + intros H. rewrite (H x) by left. simpl. apply IH.
      intros e He. apply H. by right.
Qed.

Lemma count_Forall_zero (P : event → bool) (Q : event → Prop) (t : list event) :
  Forall Q t → (∀ e, Q e → P e = false) → count P t = 0%nat.
Proof.
  intros Ht HQ. apply count_zero_iff. intros e He.
  apply HQ. by eapply Forall_forall.
Qed.

Lemma count_flat_map_zero {A} (P : event → bool) (f : A → list event) (l : list A) :
  (∀ x, x ∈ l → count P (f x) = 0%nat) → count P (flat_map f l) = 0%nat.
Proof.
  induction l as [|x l IH]; intros H; simpl; [done|].
  rewrite count_app, (H x) by left. rewrite IH; [done|].
  intros y Hy. apply H. by right.
Qed.

Lemma count_flat_map_one {A} (P : event → bool) (f : A → list event) (l : list A) (n : A) :
  NoDup l → n ∈ l → count P (f n) = 1%nat →
  (∀ x, x ∈ l → x ≠ n → count P (f x) = 0%nat) →
  count P (flat_map f l) = 1%nat.
Proof.
  induction 1 as [|x l Hx Hnd IH]; intros Hn H1 H0; simpl.
  - by apply elem_of_nil in Hn.
  - rewrite count_app. apply elem_of_cons in Hn as [->|Hn].
    + rewrite H1, count_flat_map_zero; [done|].
      intros y Hy. apply H0; [by right|]. intros ->. done.
    + rewrite (H0 x); [|left|by intros ->]. rewrite IH; [done..|].
      intros y Hy. apply H0. by right.
Qed.

(** ** One pass over a snapshot *)

Section Sync.
Context (E : env) (w0 : world) (src_files dist_files : gset string).
Hypothesis Hsnap : snapshot_at w0 src_files dist_files.

Lemma snapshot_at_dist (n : string) :
  n ∈ dist_files ↔ is_Some (fs w0 !! os_path_join DIST_DIRECTORY n).
Proof. destruct Hsnap as (_ & _ & _ & ->). apply elem_of_set_children. Qed.

(** The two loops always run to their end, and do what is expected. *)
Lemma sync_files_spec :
  sync_files E src_files dist_files w0
  = Run (Ret (expected_error E w0 src_files dist_files))
        (set_fs (expected_fs E w0 src_files dist_files) w0)
        (expected_events E w0 src_files dist_files).
Proof.
  unfold sync_files, mbind, M_bind.
  rewrite (copy_loop_spec E w0 dist_files); [|apply NoDup_iter|done|done| |].
  2:{ by destruct Hsnap as (_ & ? & _). }
  2:{ intros n _ Hn. apply eq_None_not_Some. by rewrite <- snapshot_at_dist. }
  rewrite (remove_loop_spec E w0 src_files); [|apply NoDup_iter|done|].
  - done.
  - intros n Hn. simpl. apply foldl_copy_lookup_ne.
    intros x _ Hx _ Heq. apply os_path_join_inj in Heq. subst x.
    by apply elem_of_iter in Hn.
Qed.

Lemma expected_fs_other (m : gmap path node) (p : path) :
  (∀ n, p ≠ os_path_join DIST_DIRECTORY n) →
  expected_fs E w0 src_files dist_files m !! p = m !! p.
Proof.
  intros Hp. unfold expected_fs.
  rewrite foldl_remove_lookup_ne by (intros; apply Hp).
  apply foldl_copy_lookup_ne. intros; apply Hp.
Qed.

Lemma expected_fs_both (m : gmap path node) (n : string) :
  n ∈ src_files → n ∈ dist_files →
  expected_fs E w0 src_files dist_files m !! os_path_join DIST_DIRECTORY n
  = m !! os_path_join DIST_DIRECTORY n.
Proof.
  intros Hs Hd. unfold expected_fs.
  rewrite foldl_remove_lookup_ne.
  - apply foldl_copy_lookup_ne.
    intros x _ Hx _ Heq. apply os_path_join_inj in Heq. by subst x.
  - intros x _ Hx _ Heq. apply os_path_join_inj in Heq. by subst x.
Qed.

Lemma expected_fs_copied (m : gmap path node) (n : string) :
  n ∈ src_files → n ∉ dist_files → copy_exn E w0 n = None →
  expected_fs E w0 src_files dist_files m !! os_path_join DIST_DIRECTORY n
  = copied_file w0 n.
Proof.
  intros Hs Hd Hexn. unfold expected_fs.
  rewrite foldl_remove_lookup_ne.
  - apply foldl_copy_lookup; [by apply elem_of_iter|done|done].
  - intros x Hx _ _ Heq. apply os_path_join_inj in Heq. subst x.
    by apply elem_of_iter in Hx.
Qed.

Lemma expected_fs_removed (m : gmap path node) (n : string) :
  n ∈ dist_files → n ∉ src_files → remove_exn E w0 n = None →
  expected_fs E w0 src_files dist_files m !! os_path_join DIST_DIRECTORY n = None.
Proof.
  intros Hd Hs Hexn. unfold expected_fs.
  apply foldl_remove_lookup; [by apply elem_of_iter|done|done].
Qed.

Lemma expected_fs_neither (m : gmap path node) (n : string) :
  n ∉ src_files → n ∉ dist_files →
  expected_fs E w0 src_files dist_files m !! os_path_join DIST_DIRECTORY n
  = m !! os_path_join DIST_DIRECTORY n.
Proof.
  intros Hs Hd. unfold expected_fs.
  rewrite foldl_remove_lookup_ne.
  - apply foldl_copy_lookup_ne.
    intros x Hx _ _ Heq. apply os_path_join_inj in Heq. subst x.
    by apply elem_of_iter in Hx.
  - intros x Hx _ _ Heq. apply os_path_join_inj in Heq. subst x.
    by apply elem_of_iter in Hx.
Qed.

(** *** The events of one file *)

Lemma count_copy_events (P : event → bool) (file : string) :
  (∀ l msg, P (EvLog l msg) = false) →
  count P (copy_events E w0 dist_files file)
  = if copy_pending dist_files file
    then if P (EvCopy (os_path_join SRC_DIRECTORY file)
                      (os_path_join DIST_DIRECTORY file)
                      (no_exn (copy_exn E w0 file)))
         then 1%nat else 0%nat
    else 0%nat.
Proof.
  intros Hlog. unfold copy_events.
  destruct (copy_pending dist_files file); simpl; rewrite ?Hlog; [|done].
  destruct (copy_exn E w0 file) as [e|]; simpl; rewrite ?Hlog; simpl;
    destruct (P _); done.
Qed.

Lemma count_remove_events (P : event → bool) (file : string) :
  (∀ l msg, P (EvLog l msg) = false) →
  count P (remove_events E w0 src_files file)
  = if remove_pending src_files file
    then if P (EvRemove (os_path_join DIST_DIRECTORY file)
                        (no_exn (remove_exn E w0 file)))
         then 1%nat else 0%nat
    else 0%nat.
Proof.
  intros Hlog. unfold remove_events.
  destruct (remove_pending src_files file); simpl; rewrite ?Hlog; [|done].
  destruct (remove_exn E w0 file) as [e|]; simpl; rewrite ?Hlog; simpl;
    destruct (P _); done.
Qed.

Lemma expected_events_sync :
  Forall (λ e, is_sync e) (expected_events E w0 src_files dist_files).
Proof.
  unfold expected_events. apply Forall_app. split.
  - apply Forall_flat_map, Forall_forall. intros x _.
    unfold copy_events, failure_log.
    destruct (copy_pending dist_files x); [|by repeat constructor].
    destruct (copy_exn E w0 x); by repeat constructor.
  - apply Forall_flat_map, Forall_forall. intros x _.
    unfold remove_events, failure_log.
    destruct (remove_pending src_files x); [|by repeat constructor].
    destruct (remove_exn E w0 x); by repeat constructor.
Qed.

(** *** Failures, the flag and the trace *)

Lemma count_failure_copy_events (file : string) :
  count is_failure (copy_events E w0 dist_files file)
  = if copy_fails E w0 dist_files file then 1%nat else 0%nat.
Proof.
  rewrite count_copy_events by done. unfold copy_fails.
  destruct (copy_pending dist_files file); [|done].
  by destruct (copy_exn E w0 file).
Qed.

Lemma count_failure_remove_events (file : string) :
  count is_failure (remove_events E w0 src_files file)
  = if remove_fails E w0 src_files file then 1%nat else 0%nat.
Proof.
  rewrite count_remove_events by done. unfold remove_fails.
  destruct (remove_pending src_files file); [|done].
  by destruct (remove_exn E w0 file).
Qed.

Lemma existsb_copy_fails (l : list string) :
  existsb (copy_fails E w0 dist_files) l
  = negb (Nat.eqb (count is_failure (flat_map (copy_events E w0 dist_files) l)) 0).
Proof.
  induction l as [|x l IH]; simpl; [done|].
  rewrite count_app, count_failure_copy_events, IH.
  by destruct (copy_fails E w0 dist_files x).
Qed.

Lemma existsb_remove_fails (l : list string) :
  existsb (remove_fails E w0 src_files) l
  = negb (Nat.eqb (count is_failure (flat_map (remove_events E w0 src_files) l)) 0).
Proof.
  induction l as [|x l IH]; simpl; [done|].
  rewrite count_app, count_failure_remove_events, IH.
  by destruct (remove_fails E w0 src_files x).
Qed.

(** The flag is raised exactly when some copy or delete failed. *)
Lemma expected_error_count :
  expected_error E w0 src_files dist_files
  = negb (Nat.eqb (count is_failure (expected_events E w0 src_files dist_files)) 0).
Proof.
  unfold expected_error, expected_events.
  rewrite count_app, existsb_copy_fails, existsb_remove_fails.
  destruct (count is_failure (flat_map _ (iter (order E) src_files))); [|done].
  by destruct (count is_failure (flat_map _ (iter (order E) dist_files))).
Qed.

(** Each pending copy is attempted: its event is in the trace. *)
Lemma copy_event_in (n : string) :
  n ∈ src_files → n ∉ dist_files →
  EvCopy (os_path_join SRC_DIRECTORY n) (os_path_join DIST_DIRECTORY n)
         (no_exn (copy_exn E w0 n))
  ∈ expected_events E w0 src_files dist_files.
Proof.
  intros Hs Hd. unfold expected_events. apply elem_of_app. left.
  apply list_elem_of_In, in_flat_map. exists n. split.
  - by apply list_elem_of_In, elem_of_iter.
  - apply list_elem_of_In. unfold copy_events, copy_pending.
    rewrite bool_decide_eq_true_2 by done.
    destruct (copy_exn E w0 n); simpl; right; left.
Qed.

Lemma remove_event_in (n : string) :
  n ∈ dist_files → n ∉ src_files →
  EvRemove (os_path_join DIST_DIRECTORY n) (no_exn (remove_exn E w0 n))
  ∈ expected_events E w0 src_files dist_files.
Proof.
  intros Hd Hs. unfold expected_events. apply elem_of_app. right.
  apply list_elem_of_In, in_flat_map. exists n. split.
  - by apply list_elem_of_In, elem_of_iter.
  - apply list_elem_of_In. unfold remove_events, remove_pending.
    rewrite bool_decide_eq_true_2 by done.
    destruct (remove_exn E w0 n); simpl; right; left.
Qed.

Lemma no_failure_copy (n : string) :
  count is_failure (expected_events E w0 src_files dist_files) = 0%nat →
  n ∈ src_files → n ∉ dist_files → copy_exn E w0 n = None.
Proof.
  intros H0 Hs Hd. rewrite count_zero_iff in H0.
  specialize (H0 _ (copy_event_in n Hs Hd)). simpl in H0.
  by destruct (copy_exn E w0 n).
Qed.

Lemma no_failure_remove (n : string) :
  count is_failure (expected_events E w0 src_files dist_files) = 0%nat →
  n ∈ dist_files → n ∉ src_files → remove_exn E w0 n = None.
Proof.
  intros H0 Hd Hs. rewrite count_zero_iff in H0.
  specialize (H0 _ (remove_event_in n Hd Hs)). simpl in H0.
  by destruct (remove_exn E w0 n).
Qed.

(** Without failures the destination lists as the source did. *)
Lemma expected_fs_children :
  count is_failure (expected_events E w0 src_files dist_files) = 0%nat →
  set_ (children DIST_DIRECTORY (expected_fs E w0 src_files dist_files (fs w0)))
  = src_files.
Proof.
  intros H0. apply set_eq. intros n. rewrite elem_of_set_children.
  change (DIST_DIRECTORY ++ [n]) with (os_path_join DIST_DIRECTORY n).
  destruct (decide (n ∈ src_files)) as [Hs|Hs];
    destruct (decide (n ∈ dist_files)) as [Hd|Hd].
  - rewrite expected_fs_both by done. by rewrite <- snapshot_at_dist.
  - rewrite expected_fs_copied by (try done; by apply no_failure_copy).
    destruct (copy_exn_None E w0 n) as (f & _ & ->); [by apply no_failure_copy|].
    split; [done|]. by eexists.
  - rewrite expected_fs_removed by (try done; by apply no_failure_remove).
    split; [by intros [? ?]|done].
  - rewrite expected_fs_neither by done. by rewrite <- snapshot_at_dist.
Qed.

(** *** Which copies and deletes are in the trace *)

Lemma elem_of_flat_map {A} (f : A → list event) (l : list A) (e : event) :
  e ∈ flat_map f l ↔ ∃ x, x ∈ l ∧ e ∈ f x.
Proof.
  rewrite list_elem_of_In, in_flat_map. split.
  - intros (x & Hx & He). exists x. by rewrite !list_elem_of_In.
  - intros (x & Hx & He). exists x. by rewrite <- !list_elem_of_In.
Qed.

Lemma copy_event_inv (src dst : path) (ok : bool) :
  EvCopy src dst ok ∈ expected_events E w0 src_files dist_files →
  ∃ n, n ∈ src_files ∧ (n ∉ dist_files)
       ∧ src = os_path_join SRC_DIRECTORY n ∧ dst = os_path_join DIST_DIRECTORY n
       ∧ ok = no_exn (copy_exn E w0 n).
Proof.
  unfold expected_events. intros He.
  apply elem_of_app in He as [He|He];
    apply elem_of_flat_map in He as (n & Hn & He); apply elem_of_iter in Hn.
  - exists n. revert He.
    unfold copy_events, copy_pending, failure_log. case_bool_decide as Hd.
    + destruct (copy_exn E w0 n); simpl; intros He; elem_cases He;
        injection He as -> -> ->; (by split_and!).
    + simpl. intros He. elem_cases He.
  - exfalso. revert He. unfold remove_events, failure_log.
    destruct (remove_pending src_files n); [|intros He; elem_cases He].
    destruct (remove_exn E w0 n); simpl; intros He; elem_cases He.
Qed.

Lemma remove_event_inv (p : path) (ok : bool) :
  EvRemove p ok ∈ expected_events E w0 src_files dist_files →
  ∃ n, n ∈ dist_files ∧ (n ∉ src_files)
       ∧ p = os_path_join DIST_DIRECTORY n
       ∧ ok = no_exn (remove_exn E w0 n).
Proof.
  unfold expected_events. intros He.
  apply elem_of_app in He as [He|He];
    apply elem_of_flat_map in He as (n & Hn & He); apply elem_of_iter in Hn.
  - exfalso. revert He. unfold copy_events, failure_log.
    destruct (copy_pending dist_files n); simpl; [|intros He; elem_cases He].
    destruct (copy_exn E w0 n); simpl; intros He; elem_cases He.
  - exists n. revert He.
    unfold remove_events, remove_pending, failure_log. case_bool_decide as Hd.
    + destruct (remove_exn E w0 n); simpl; intros He; elem_cases He;
        injection He as -> ->; (by split_and!).
    + intros He. elem_cases He.
Qed.

Lemma copy_failure_logged (n : string) (e : exn) :
  n ∈ src_files → n ∉ dist_files → copy_exn E w0 n = Some e →
  EvLog ERROR ("Failed to copy file: " +:+ n +:+ ", " +:+ exn_str e)
  ∈ expected_events E w0 src_files dist_files.
Proof.
  intros Hs Hd He. unfold expected_events. apply elem_of_app. left.
  apply elem_of_flat_map. exists n. split; [by apply elem_of_iter|].
  unfold copy_events, copy_pending, failure_log.
  rewrite bool_decide_eq_true_2 by done. rewrite He. simpl.
  do 2 right. left.
Qed.

Lemma remove_failure_logged (n : string) (e : exn) :
  n ∈ dist_files → n ∉ src_files → remove_exn E w0 n = Some e →
  EvLog ERROR ("Failed to remove file: " +:+ n +:+ ", " +:+ exn_str e)
  ∈ expected_events E w0 src_files dist_files.
Proof.
  intros Hd Hs He. unfold expected_events. apply elem_of_app. right.
  apply elem_of_flat_map. exists n. split; [by apply elem_of_iter|].
  unfold remove_events, remove_pending, failure_log.
  rewrite bool_decide_eq_true_2 by done. rewrite He. simpl.
  do 2 right. left.
Qed.

(** Each pending copy is attempted once, and no other. *)
Lemma count_copy_of (n : string) :
  count (is_copy_of n) (expected_events E w0 src_files dist_files)
  = if bool_decide (n ∈ src_files ∧ n ∉ dist_files) then 1%nat else 0%nat.
Proof.
  unfold expected_events. rewrite count_app.
  rewrite (count_flat_map_zero _ (remove_events E w0 src_files)).
  2:{ intros x _. rewrite count_remove_events by done.
      by destruct (remove_pending src_files x). }
  rewrite Nat.add_0_r.
  assert (Hone : ∀ x, count (is_copy_of n) (copy_events E w0 dist_files x)
                      = if bool_decide (x = n ∧ x ∉ dist_files) then 1%nat else 0%nat).
  { intros x. rewrite count_copy_events by done. unfold copy_pending. simpl.
    repeat case_bool_decide; try done; exfalso; join_cases. }
  case_bool_decide as Hn.
  - destruct Hn as [Hs Hd].
    apply (count_flat_map_one _ _ _ n); [apply NoDup_iter|by apply elem_of_iter| |].
    + rewrite Hone. by rewrite bool_decide_eq_true_2.
    + intros x _ Hx. rewrite Hone. rewrite bool_decide_eq_false_2; [done|].
      by intros [? _].
  - apply count_flat_map_zero. intros x Hx. apply elem_of_iter in Hx.
    rewrite Hone. rewrite bool_decide_eq_false_2; [done|].
    intros [-> ?]. by apply Hn.
Qed.

(** Each pending delete is attempted once, and no other. *)
Lemma count_remove_of (n : string) :
  count (is_remove_of n) (expected_events E w0 src_files dist_files)
  = if bool_decide (n ∈ dist_files ∧ n ∉ src_files) then 1%nat else 0%nat.
Proof.
  unfold expected_events. rewrite count_app.
  rewrite (count_flat_map_zero _ (copy_events E w0 dist_files)).
  2:{ intros x _. rewrite count_copy_events by done.
      by destruct (copy_pending dist_files x). }
  rewrite Nat.add_0_l.
  assert (Hone : ∀ x, count (is_remove_of n) (remove_events E w0 src_files x)
                      = if bool_decide (x = n ∧ x ∉ src_files) then 1%nat else 0%nat).
  { intros x. rewrite count_remove_events by done. unfold remove_pending. simpl.
    repeat case_bool_decide; try done; exfalso; join_cases. }
  case_bool_decide as Hn.
  - destruct Hn as [Hd Hs].
    apply (count_flat_map_one _ _ _ n); [apply NoDup_iter|by apply elem_of_iter| |].
    + rewrite Hone. by rewrite bool_decide_eq_true_2.
    + intros x _ Hx. rewrite Hone. rewrite bool_decide_eq_false_2; [done|].
      by intros [? _].
  - apply count_flat_map_zero. intros x Hx. apply elem_of_iter in Hx.
    rewrite Hone. rewrite bool_decide_eq_false_2; [done|].
    intros [-> ?]. by apply Hn.
Qed.

(** Nothing is copied onto, or deleted at, a name that both sides have. *)
Lemma count_touches_both (n : string) :
  n ∈ src_files → n ∈ dist_files →
  count (touches (os_path_join DIST_DIRECTORY n))
        (expected_events E w0 src_files dist_files) = 0%nat.
Proof.
  intros Hs Hd. unfold expected_events. rewrite count_app.
  rewrite !count_flat_map_zero; [done| |].
  - intros x _. rewrite count_remove_events by done. unfold remove_pending. simpl.
    case_bool_decide as Hx; [|done]. case_bool_decide as Heq; [|done].
    apply os_path_join_inj in Heq. by subst x.
  - intros x _. rewrite count_copy_events by done. unfold copy_pending. simpl.
    case_bool_decide as Hx; [|done]. case_bool_decide as Heq; [|done].
    apply os_path_join_inj in Heq. by subst x.
Qed.

(** With equal listings nothing is pending. *)
Lemma count_copy_remove_synced :
  src_files = dist_files →
  count is_copy (expected_events E w0 src_files dist_files) = 0%nat
  ∧ count is_remove (expected_events E w0 src_files dist_files) = 0%nat.
Proof.
  intros Heq. unfold expected_events. rewrite !count_app.
  assert (Hc : ∀ P, (∀ l msg, P (EvLog l msg) = false) →
            count P (flat_map (copy_events E w0 dist_files) (iter (order E) src_files))
            = 0%nat).
  { intros P HP. apply count_flat_map_zero. intros x Hx. apply elem_of_iter in Hx.
    rewrite count_copy_events by done.
    unfold copy_pending. rewrite bool_decide_eq_false_2; [done|].
    intros Hn. apply Hn. by rewrite <- Heq. }
  assert (Hr : ∀ P, (∀ l msg, P (EvLog l msg) = false) →
            count P (flat_map (remove_events E w0 src_files) (iter (order E) dist_files))
            = 0%nat).
  { intros P HP. apply count_flat_map_zero. intros x Hx. apply elem_of_iter in Hx.
    rewrite count_remove_events by done.
    unfold remove_pending. rewrite bool_decide_eq_false_2; [done|].
    intros Hn. apply Hn. by rewrite Heq. }
  by rewrite !Hc, !Hr.
Qed.

End Sync.

(** The pass is the snapshot followed by the two loops. *)
Lemma make_re_backup_sync_run (E : env) (w w0 : world) (S D : gset string)
    (t0 : list event) :
  snapshot E w = Run (Ret (S, D)) w0 t0 →
  make_re_backup_sync E w
  = Run (Ret (expected_error E w0 S D)) (set_fs (expected_fs E w0 S D) w0)
        (t0 ++ expected_events E w0 S D).
Proof.
  intros Hs. unfold make_re_backup_sync. rewrite bind_run, Hs. simpl.
  by rewrite (sync_files_spec E w0 S D (snapshot_Ret E w w0 S D t0 Hs)).
Qed.

(** When the snapshot fails, so does the pass, with nothing more done. *)
Lemma make_re_backup_sync_raise (E : env) (w : world) (e : exn) :
  res (snapshot E w) = Raise e →
  make_re_backup_sync E w = Run (Raise e) (final (snapshot E w)) (emitted (snapshot E w)).
Proof.
  intros Hs. unfold make_re_backup_sync. by rewrite bind_run, Hs.
Qed.

(** ** The alerts and the sleep *)

Section Alerts.
Context (E : env).

Lemma alert_error_run (self : NotificationController) (w : world) :
  alert_error self w
  = Run (Ret ()) (advance (seconds 1) w)
        [EvThreadStart Target_alert_error; EvSleep (seconds 1)].
Proof. reflexivity. Qed.

Lemma alert_msg_res (self : NotificationController) (message : string) (w : world) :
  res (alert_msg E self message w)
  = match tts_fault E (clock w) with
    | Some e => Raise e
    | None => Ret ()
    end.
Proof.
  unfold alert_msg, tts_fault, mbind, M_bind, pyttsx3_init, engine_say,
    engine_runAndWait.
  destruct (fault E (clock w) SysTtsInit); [done|].
  destruct (fault E (clock w) SysTtsSay); [done|]. simpl.
  by destruct (fault E (clock w) SysTtsRunAndWait).
Qed.

Lemma Forall_map_spoken (q : list string) :
  Forall (λ e, is_spoken_alert e) (map EvSpoken q).
Proof. induction q; by constructor. Qed.

Lemma count_map_spoken (P : event → bool) (q : list string) :
  (∀ m, P (EvSpoken m) = false) → count P (map EvSpoken q) = 0%nat.
Proof. intros HP. induction q as [|m q IH]; simpl; [done|]. by rewrite HP, IH. Qed.

(** One call of [alert_msg] is one attempt to speak, whatever comes of it. *)
Lemma alert_msg_events (self : NotificationController) (message : string) (w : world) :
  let r := alert_msg E self message w in
  Forall (λ e, is_spoken_alert e) (emitted r)
  ∧ count is_speech_attempt (emitted r) = 1%nat
  ∧ fs (final r) = fs w
  ∧ res r ≠ Diverge.
Proof.
  unfold alert_msg, mbind, M_bind, pyttsx3_init, engine_say, engine_runAndWait.
  destruct (fault E (clock w) SysTtsInit); [by repeat constructor|].
  destruct (fault E (clock w) SysTtsSay); [by repeat constructor|]. simpl.
  destruct (fault E (clock w) SysTtsRunAndWait); simpl; [by repeat constructor|].
  split_and!; try done.
  - repeat constructor. apply Forall_app. split; [apply Forall_map_spoken|].
    by repeat constructor.
  - rewrite count_app, count_map_spoken by done. done.
Qed.

Lemma time_sleep_cases (ds : Z) (w : world) :
  (time_sleep ds w = Run (Ret ()) (advance ds w) [EvSleep ds] ∧ 0 ≤ ds)
  ∨ (∃ e, time_sleep ds w = Run (Raise e) w [] ∧ ds < 0).
Proof.
  unfold time_sleep. destruct (Z.ltb_spec ds 0); [right|left]; eauto.
Qed.

Lemma is_spoken_alert_or_sleep (e : event) :
  is_spoken_alert e → is_alert_or_sleep e.
Proof. by destruct e. Qed.

(** Lines 108-112 never touch the file system and only alert and sleep;
    the alerts are none without the flag, and one of each with it. *)
Lemma alert_and_sleep_effect (audio_alert : NotificationController)
    (timeaut_minutes : Z) (was_error : bool) (w : world) :
  let r := alert_and_sleep E audio_alert timeaut_minutes was_error w in
  Forall (λ e, is_alert_or_sleep e) (emitted r)
  ∧ fs (final r) = fs w
  ∧ res r ≠ Diverge
  ∧ count is_sound_alert (emitted r) = (if was_error then 1 else 0)%nat
  ∧ count is_error_sound (emitted r) = (if was_error then 1 else 0)%nat
  ∧ count is_speech_attempt (emitted r) = (if was_error then 1 else 0)%nat
  ∧ (was_error = false → count is_spoken_alert (emitted r) = 0%nat).
Proof.
  unfold alert_and_sleep. destruct was_error.
  - rewrite bind_run, bind_run, alert_error_run. cbn [res final emitted].
    set (w1 := advance (seconds 1) w).
    destruct (alert_msg_events audio_alert "backup error" w1) as (Hev & Hcnt & Hfs & Hdiv).
    assert (Hsnd : count is_sound_alert (emitted (alert_msg E audio_alert "backup error" w1)) = 0%nat).
    { eapply count_Forall_zero; [exact Hev|]. by intros []. }
    assert (Herr : count is_error_sound (emitted (alert_msg E audio_alert "backup error" w1)) = 0%nat).
    { eapply count_Forall_zero; [exact Hev|]. by intros []. }
    assert (Hev' : Forall (λ e, is_alert_or_sleep e)
                     (emitted (alert_msg E audio_alert "backup error" w1))).
    { eapply Forall_impl; [exact Hev|]. apply is_spoken_alert_or_sleep. }
    destruct (alert_msg E audio_alert "backup error" w1) as [[[]|e|] w2 t2];
      cbn [res final emitted] in *; [| |done].
    + destruct (time_sleep_cases (seconds (timeaut_minutes * 60)) w2)
        as [[-> _]|(e & -> & _)]; cbn [res final emitted].
      * split_and!; try done.
        -- repeat constructor. apply Forall_app. split; [done|]. by repeat constructor.
        -- simpl. rewrite count_app, Hsnd. done.
        -- simpl. rewrite count_app, Herr. done.
        -- simpl. rewrite count_app, Hcnt. done.
      * split_and!; try done.
        -- repeat constructor. apply Forall_app. by split.
        -- simpl. rewrite count_app, Hsnd. done.
        -- simpl. rewrite count_app, Herr. done.
        -- simpl. rewrite count_app, Hcnt. done.
    + split_and!; try done;
        first [by repeat constructor|simpl; by rewrite ?Hsnd, ?Herr, ?Hcnt].
  - rewrite bind_run. cbn [res final emitted mret M_ret].
    destruct (time_sleep_cases (seconds (timeaut_minutes * 60)) w)
      as [[-> _]|(e & -> & _)]; cbn [res final emitted];
      split_and!; try done; by repeat constructor.
Qed.

End Alerts.

(** ** One turn of the loop *)

Section Cycle.
Context (E : env).

Lemma snapshot_cases (w : world) :
  (∃ S D w0 t0, snapshot E w = Run (Ret (S, D)) w0 t0)
  ∨ (∃ e, res (snapshot E w) = Raise e).
Proof.
  destruct (snapshot_within E w) as (_ & _ & Hdiv).
  destruct (snapshot E w) as [[[S D]|e|] w0 t0] eqn:Hs; [left|right|done].
  - by exists S, D, w0, t0.
  - by exists e.
Qed.

Lemma cycle_run_ok (audio_alert : NotificationController) (timeaut_minutes : Z)
    (w w0 : world) (S D : gset string) (t0 : list event) :
  snapshot E w = Run (Ret (S, D)) w0 t0 →
  make_re_backup_cycle E audio_alert timeaut_minutes w
  = let r := alert_and_sleep E audio_alert timeaut_minutes (expected_error E w0 S D)
               (set_fs (expected_fs E w0 S D) w0) in
    Run (res r) (final r) ((t0 ++ expected_events E w0 S D) ++ emitted r).
Proof.
  intros Hs. unfold make_re_backup_cycle.
  by rewrite bind_run, (make_re_backup_sync_run E w w0 S D t0 Hs).
Qed.

Lemma cycle_run_raise (audio_alert : NotificationController) (timeaut_minutes : Z)
    (w : world) (e : exn) :
  res (snapshot E w) = Raise e →
  make_re_backup_cycle E audio_alert timeaut_minutes w
  = Run (Raise e) (final (snapshot E w)) (emitted (snapshot E w)).
Proof.
  intros Hs. unfold make_re_backup_cycle.
  by rewrite bind_run, (make_re_backup_sync_raise E w e Hs).
Qed.

(** Making the destination changes no entry of either directory. *)
Lemma grows_src_child (w w0 : world) (n : string) :
  grows DIST_DIRECTORY w w0 →
  fs w0 !! os_path_join SRC_DIRECTORY n = fs w !! os_path_join SRC_DIRECTORY n.
Proof.
  intros (_ & Hf & _). destruct (Hf (os_path_join SRC_DIRECTORY n))
    as [?|(_ & _ & [k Hk] & _)]; [done|]. discriminate Hk.
Qed.

Lemma grows_dist_child (w w0 : world) (n : string) :
  grows DIST_DIRECTORY w w0 →
  fs w0 !! os_path_join DIST_DIRECTORY n = fs w !! os_path_join DIST_DIRECTORY n.
Proof.
  intros (_ & Hf & _). destruct (Hf (os_path_join DIST_DIRECTORY n))
    as [?|(_ & _ & [k Hk] & _)]; [done|].
  apply (f_equal length) in Hk. unfold os_path_join in Hk.
  rewrite !length_app in Hk. simpl in Hk. lia.
Qed.

Lemma grows_children (w w0 : world) :
  grows DIST_DIRECTORY w w0 →
  set_ (children SRC_DIRECTORY (fs w0)) = set_ (children SRC_DIRECTORY (fs w))
  ∧ set_ (children DIST_DIRECTORY (fs w0)) = set_ (children DIST_DIRECTORY (fs w)).
Proof.
  intros Hg. split; apply set_eq; intros n; rewrite !elem_of_set_children.
  - change (SRC_DIRECTORY ++ [n]) with (os_path_join SRC_DIRECTORY n).
    by rewrite (grows_src_child w w0 n Hg).
  - change (DIST_DIRECTORY ++ [n]) with (os_path_join DIST_DIRECTORY n).
    by rewrite (grows_dist_child w w0 n Hg).
Qed.

Lemma snapshot_grows (w w0 : world) (S D : gset string) (t0 : list event) :
  snapshot E w = Run (Ret (S, D)) w0 t0 →
  grows DIST_DIRECTORY w w0 ∧ Forall (λ e, is_prelude e) t0.
Proof.
  intros Hs. destruct (snapshot_within E w) as (Hg & Hev & _).
  rewrite Hs in Hg, Hev. by split.
Qed.

End Cycle.

(** ** The loop *)

Lemma run_eta {A} (r : run A) : Run (res r) (final r) (emitted r) = r.
Proof. by destruct r. Qed.

(** An exception in a turn ends [while True]. *)
Lemma while_True_raise (fuel : nat) (body : M unit) (w : world) (e : exn) :
  res (body w) = Raise e →
  while (S fuel) (mret true) body w = Run (Raise e) (final (body w)) (emitted (body w)).
Proof.
  intros Hb. cbn [while]. rewrite bind_run. cbn [mret M_ret res final emitted].
  by rewrite bind_run, Hb.
Qed.

Lemma make_re_backup_raise (E : env) (fuel : nat) (timeaut_minutes : Z) (w : world)
    (e : exn) :
  let body := make_re_backup_cycle E
                (NotificationController_init ["data"; "bad.mp3"] ["data"; "bad.mp3"]
                   ["data"; "bad.mp3"]) timeaut_minutes in
  res (body w) = Raise e →
  make_re_backup E (S fuel) timeaut_minutes w
  = Run (Raise e) (final (body w)) (emitted (body w)).
Proof. intros body Hb. unfold make_re_backup. by apply while_True_raise. Qed.

Section Absent.
Context (E : env).

(** With no destination, the turn starts with [makedirs]; the listings
    come next, the listing of the source first; a failure of [makedirs]
    is the outcome of the snapshot. *)
Lemma snapshot_absent (w : world) :
  fs w !! DIST_DIRECTORY = None →
  let mk := os_makedirs E DIST_DIRECTORY w in
  match res mk with
  | Ret _ =>
      final (snapshot E w) = final mk
      ∧ ∃ ok rest, emitted (snapshot E w) = emitted mk ++ EvListdir SRC_DIRECTORY ok :: rest
  | Raise e => snapshot E w = Run (Raise e) (final mk) (emitted mk)
  | Diverge => True
  end.
Proof.
  intros Habs. unfold snapshot. rewrite bind_run.
  unfold os_path_exists, get. cbn [res final emitted].
  rewrite bool_decide_eq_false_2 by (rewrite Habs; by intros [? ?]).
  cbn [negb app]. rewrite run_eta. rewrite bind_run.
  destruct (res (os_makedirs E DIST_DIRECTORY w)) as [[]|e|]; [|done|done].
  cbn [res final emitted]. rewrite bind_run.
  set (w1 := final (os_makedirs E DIST_DIRECTORY w)).
  destruct (os_listdir_cases E SRC_DIRECTORY w1) as [[-> _]|[e ->]];
    cbn [res final emitted].
  - rewrite bind_run.
    destruct (os_listdir_cases E DIST_DIRECTORY w1) as [[-> _]|[e ->]];
      cbn [res final emitted mret M_ret]; (split; [done|]); by eexists _, _.
  - split; [done|]. by eexists _, _.
Qed.

Lemma sync_emitted (w : world) :
  ∃ rest, emitted (make_re_backup_sync E w) = emitted (snapshot E w) ++ rest.
Proof. unfold make_re_backup_sync. apply bind_emitted. Qed.

Lemma cycle_emitted (audio_alert : NotificationController) (timeaut_minutes : Z)
    (w : world) :
  ∃ rest, emitted (make_re_backup_cycle E audio_alert timeaut_minutes w)
          = emitted (make_re_backup_sync E w) ++ rest.
Proof. unfold make_re_backup_cycle. apply bind_emitted. Qed.

(** If the speech engine fails just after the error sound, lines 108-112
    raise. *)
Lemma alert_and_sleep_raise (audio_alert : NotificationController)
    (timeaut_minutes : Z) (w : world) (e : exn) :
  tts_fault E (clock w + seconds 1) = Some e →
  res (alert_and_sleep E audio_alert timeaut_minutes true w) = Raise e.
Proof.
  intros Hf. unfold alert_and_sleep.
  rewrite bind_run, bind_run, alert_error_run. cbn [res final emitted].
  pose proof (alert_msg_res E audio_alert "backup error" (advance (seconds 1) w)) as Hr.
  cbn [advance clock] in Hr. rewrite Hf in Hr. by rewrite Hr.
Qed.

End Absent.

(** ** Playing a sound *)

Section Sound.
Context (E : env).

Lemma no_diverge_bind {A B} (m : M A) (k : A → M B) (w : world) :
  res (m w) ≠ Diverge → (∀ a w', res (k a w') ≠ Diverge) →
  res ((m ≫= k) w) ≠ Diverge.
Proof.
  intros Hm Hk. rewrite bind_run. destruct (res (m w)); simpl; [apply Hk|done|done].
Qed.

(** The polling loop ends once the music is over. *)
Lemma while_busy_ends (fuel : nat) (w : world) :
  (Z.to_nat (music_busy w) < fuel)%nat →
  res (while fuel (pygame_mixer_music_get_busy E) (time_sleep (tenths 1)) w) ≠ Diverge.
Proof.
  revert w. induction fuel as [|fuel IH]; intros w Hlt; [lia|].
  cbn [while]. rewrite bind_run. unfold pygame_mixer_music_get_busy at 1 2 3.
  destruct (fault E (clock w) SysMusicGetBusy); [done|].
  destruct (mixer_ready w); [|done]. cbn [res final emitted].
  destruct (Z.ltb_spec 0 (music_busy w)) as [Hpos|Hle]; [|done].
  rewrite bind_run. cbn [time_sleep tenths Z.ltb Z.compare res final emitted].
  apply IH. cbn [advance music_busy]. unfold tenths. lia.
Qed.

Lemma stop_quit_end (a : unit) (w : world) :
  res ((pygame_mixer_music_stop E;; pygame_mixer_quit E;; mret true) w) ≠ Diverge.
Proof.
  apply no_diverge_bind.
  { unfold pygame_mixer_music_stop. destruct (fault E _ _); [done|].
    by destruct (mixer_ready w). }
  intros _ w1. apply no_diverge_bind; [|done].
  unfold pygame_mixer_quit. by destruct (fault E _ _).
Qed.

(** [alert_sound] never raises. *)
Lemma alert_sound_never_raises (fuel : nat) (self : NotificationController)
    (sound_file_path : path) (w : world) (e : exn) :
  res (alert_sound E fuel self sound_file_path w) ≠ Raise e.
Proof.
  unfold alert_sound. rewrite try_except_run.
  match goal with |- res (match res ?b with _ => _ end) ≠ _ =>
    destruct (res b) eqn:Hb end; simpl; [by rewrite Hb|done|by rewrite Hb].
Qed.

(** With fuel for the length of the sound, [alert_sound] returns. *)
Lemma alert_sound_returns (fuel : nat) (self : NotificationController)
    (sound_file_path : path) (w : world) :
  (Z.to_nat (playing_time E w sound_file_path) < fuel)%nat →
  ∃ b, res (alert_sound E fuel self sound_file_path w) = Ret b.
Proof.
  intros Hfuel.
  assert (Hbody : res ((pygame_mixer_init E;;
                        pygame_mixer_music_load E sound_file_path;;
                        pygame_mixer_music_play E;;
                        while fuel (pygame_mixer_music_get_busy E) (time_sleep (tenths 1));;
                        pygame_mixer_music_stop E;;
                        pygame_mixer_quit E;;
                        mret true) w) ≠ Diverge).
  { rewrite bind_run. unfold pygame_mixer_init at 1 2 3.
    destruct (fault E (clock w) SysMixerInit); [done|]. cbn [res final emitted].
    rewrite bind_run. unfold pygame_mixer_music_load at 1 2 3.
    cbn [set_mixer clock mixer_ready fs negb].
    destruct (fault E (clock w) (SysMusicLoad sound_file_path)); [done|].
    unfold playing_time in Hfuel.
    destruct (fs w !! sound_file_path) as [[f|]|]; [|done|done].
    destruct (decode E (data f)) as [d|]; [|done]. cbn [res final emitted].
    rewrite bind_run. unfold pygame_mixer_music_play at 1 2 3.
    cbn [set_mixer clock mixer_ready music_loaded].
    destruct (fault E (clock w) SysMusicPlay); [done|]. cbn [res final emitted].
    apply no_diverge_bind; [|apply stop_quit_end].
    apply while_busy_ends. by cbn [music_busy]. }
  unfold alert_sound. rewrite try_except_run.
  match goal with |- ∃ _, res (match res ?b with _ => _ end) = _ =>
    destruct (res b) as [b'|e|] eqn:Hb end; simpl; [|by eexists|done].
  exists b'. by rewrite Hb.
Qed.

(** A missing or unreadable sound, on a device that opens: the call
    returns false and the mixer stays initialised. *)
Lemma alert_sound_load_failure (fuel : nat) (self : NotificationController)
    (sound_file_path : path) (w : world) :
  fault E (clock w) SysMixerInit = None →
  is_regular (fs w !! sound_file_path) = false →
  alert_sound E fuel self sound_file_path w
  = Run (Ret false) (set_mixer true (music_loaded w) (music_busy w) w)
        [EvMixerInit true; EvMusicLoad sound_file_path false].
Proof.
  intros Hinit Hfile.
  unfold alert_sound, try_except, mbind, M_bind, pygame_mixer_init,
    pygame_mixer_music_load.
  rewrite Hinit. cbn [set_mixer clock mixer_ready fs negb].
  destruct (fault E (clock w) (SysMusicLoad sound_file_path)); [done|].
  by destruct (fs w !! sound_file_path) as [[f|]|].
Qed.

Lemma falls_back_bool (fuel : nat) (self : NotificationController)
    (custom default : path) (w : world) :
  falls_back E fuel self custom default w
    ((played ← alert_sound E fuel self custom;
      if negb played then alert_sound E fuel self default else mret true) w).
Proof.
  unfold falls_back. rewrite bind_run.
  destruct (res (alert_sound E fuel self custom w)) as [[]|e|]; simpl;
    by rewrite ?app_nil_r.
Qed.

Lemma falls_back_unit (fuel : nat) (self : NotificationController)
    (custom default : path) (w : world) :
  falls_back E fuel self custom default w
    ((played ← alert_sound E fuel self custom;
      if negb played then alert_sound E fuel self default;; mret ()
      else mret ()) w).
Proof.
  unfold falls_back. rewrite bind_run.
  destruct (res (alert_sound E fuel self custom w)) as [[]|e|]; simpl;
    rewrite ?app_nil_r; [done| |done|done].
  rewrite bind_run.
  destruct (res (alert_sound E fuel self default _)); simpl; by rewrite ?app_nil_r.
Qed.

End Sound.

(** * The claims *)

(** ** C1 *)

(** C1. For the source and destination name sets snapshotted at the start
    of a cycle, the copy and delete phases run to their end; if no copy and
    no delete failed, the destination directory then lists exactly the
    source set: every source name is present and no other name remains. *)
Theorem sync_destination_lists_source (E : env) (w w0 : world)
    (src_files dist_files : gset string) (t0 : list event) :
  snapshot E w = Run (Ret (src_files, dist_files)) w0 t0 →
  ∃ (was_error : bool) (w' : world) (t : list event),
    make_re_backup_sync E w = Run (Ret was_error) w' (t0 ++ t)
    ∧ (count is_failure t = 0%nat →
       set_ (children DIST_DIRECTORY (fs w')) = src_files).
Proof.
  intros Hs. eexists _, _, _. split; [by apply make_re_backup_sync_run|].
  intros H0. simpl. apply expected_fs_children; [|done].
  by eapply snapshot_Ret.
Qed.

Lemma sync_destination_lists_source_witness :
  snapshot Examples.quiet Examples.scenario
  = Run (Ret ({["a.txt"; "b.txt"]}, {["b.txt"; "c.txt"]})) Examples.scenario
        Examples.scenario_listings
  ∧ ∃ (was_error : bool) (w' : world) (t : list event),
      make_re_backup_sync Examples.quiet Examples.scenario
      = Run (Ret was_error) w' (Examples.scenario_listings ++ t)
      ∧ (count is_failure t = 0%nat →
         set_ (children DIST_DIRECTORY (fs w')) = {["a.txt"; "b.txt"]}).
Proof.
  split; [reflexivity|].
  apply (sync_destination_lists_source Examples.quiet Examples.scenario
           Examples.scenario _ {["b.txt"; "c.txt"]}).
  reflexivity.
Defined.

(** The scenario of the specification: [a.txt] is copied, [c.txt] is
    deleted, [b.txt] stays, and the destination lists [a.txt] and [b.txt]. *)
Example scenario_of_the_specification :
  let r := make_re_backup_sync Examples.quiet Examples.scenario in
  res r = Ret false
  ∧ filter (λ e, is_copy e || is_remove e) (emitted r)
    = [EvCopy (os_path_join SRC_DIRECTORY "a.txt") (os_path_join DIST_DIRECTORY "a.txt")
         true;
       EvRemove (os_path_join DIST_DIRECTORY "c.txt") true]
  ∧ set_ (children DIST_DIRECTORY (fs (final r))) = {["a.txt"; "b.txt"]}.
Proof. split_and!; reflexivity. Qed.

(** ** C2 *)

(** C2. Idempotence: in every state in which source and destination list
    the same names, one more cycle performs no copy and no delete. *)
Theorem synced_cycle_copies_and_deletes_nothing (E : env)
    (audio_alert : NotificationController) (timeaut_minutes : Z) (w : world) :
  set_ (children SRC_DIRECTORY (fs w)) = set_ (children DIST_DIRECTORY (fs w)) →
  count is_copy (emitted (make_re_backup_cycle E audio_alert timeaut_minutes w)) = 0%nat
  ∧ count is_remove (emitted (make_re_backup_cycle E audio_alert timeaut_minutes w))
    = 0%nat.
Proof.
  intros Heq. destruct (snapshot_cases E w) as [(S & D & w0 & t0 & Hs)|[e He]].
  - rewrite (cycle_run_ok E _ _ w w0 S D t0 Hs). cbn [emitted].
    destruct (snapshot_grows E w w0 S D t0 Hs) as [Hg Hpre].
    destruct (grows_children w w0 Hg) as [HS HD].
    destruct (snapshot_Ret E w w0 S D t0 Hs) as (_ & _ & -> & ->).
    rewrite HS, HD, Heq.
    destruct (alert_and_sleep_effect E audio_alert timeaut_minutes
                (expected_error E w0 (set_ (children DIST_DIRECTORY (fs w)))
                   (set_ (children DIST_DIRECTORY (fs w))))
                (set_fs (expected_fs E w0 (set_ (children DIST_DIRECTORY (fs w)))
                   (set_ (children DIST_DIRECTORY (fs w)))) w0))
      as (Hev & _).
    destruct (count_copy_remove_synced E w0 (set_ (children DIST_DIRECTORY (fs w)))
                (set_ (children DIST_DIRECTORY (fs w))) eq_refl) as [Hc Hr].
    rewrite !count_app, Hc, Hr.
    rewrite !(count_Forall_zero _ _ t0 Hpre) by (by intros []).
    by rewrite !(count_Forall_zero _ _ _ Hev) by (by intros []).
  - rewrite (cycle_run_raise E _ _ w e He). cbn [emitted].
    destruct (snapshot_within E w) as (_ & Hpre & _).
    by rewrite !(count_Forall_zero _ _ _ Hpre) by (by intros []).
Qed.

Lemma synced_cycle_copies_and_deletes_nothing_witness :
  set_ (children SRC_DIRECTORY (fs Examples.in_sync))
  = set_ (children DIST_DIRECTORY (fs Examples.in_sync))
  ∧ count is_copy
      (emitted (make_re_backup_cycle Examples.quiet Examples.controller 60
                  Examples.in_sync)) = 0%nat
  ∧ count is_remove
      (emitted (make_re_backup_cycle Examples.quiet Examples.controller 60
                  Examples.in_sync)) = 0%nat.
Proof.
  split; [reflexivity|].
  apply (synced_cycle_copies_and_deletes_nothing Examples.quiet Examples.controller 60
           Examples.in_sync).
  reflexivity.
Defined.

(** Two turns on the scenario of the specification: the first copies one
    file and deletes one, the second neither copies nor deletes. *)
Example second_turn_is_idle :
  let t := emitted (make_re_backup Examples.quiet 2 60 Examples.scenario) in
  count is_copy t = 1%nat ∧ count is_remove t = 1%nat ∧ count is_listdir t = 4%nat.
Proof. by vm_compute. Qed.

(** ** C3 *)

(** C3. Per-file error isolation: once the listings are taken the two loops
    run to their end whatever fails; every pending copy and every pending
    delete is attempted exactly once (no abort, no retry), also after a
    failed copy; the flag is set exactly when some copy or delete failed,
    and each failure is logged at error level with the name of the file. *)
Theorem failures_do_not_stop_the_pass (E : env) (w w0 : world)
    (src_files dist_files : gset string) (t0 : list event) :
  snapshot E w = Run (Ret (src_files, dist_files)) w0 t0 →
  ∃ (was_error : bool) (w' : world) (t : list event),
    make_re_backup_sync E w = Run (Ret was_error) w' (t0 ++ t)
    ∧ (∀ n, n ∈ src_files → n ∉ dist_files → count (is_copy_of n) t = 1%nat)
    ∧ (∀ n, n ∈ dist_files → n ∉ src_files → count (is_remove_of n) t = 1%nat)
    ∧ (was_error = true ↔ count is_failure t ≠ 0%nat)
    ∧ (∀ src dst, EvCopy src dst false ∈ t →
         ∃ n e, src = os_path_join SRC_DIRECTORY n
                ∧ dst = os_path_join DIST_DIRECTORY n
                ∧ EvLog ERROR ("Failed to copy file: " +:+ n +:+ ", " +:+ exn_str e) ∈ t)
    ∧ (∀ p, EvRemove p false ∈ t →
         ∃ n e, p = os_path_join DIST_DIRECTORY n
                ∧ EvLog ERROR ("Failed to remove file: " +:+ n +:+ ", " +:+ exn_str e) ∈ t).
Proof.
  intros Hs. eexists _, _, _. split; [by apply make_re_backup_sync_run|].
  split_and!.
  - intros n Hn Hd. rewrite count_copy_of. by rewrite bool_decide_eq_true_2.
  - intros n Hd Hn. rewrite count_remove_of. by rewrite bool_decide_eq_true_2.
  - rewrite expected_error_count.
    destruct (count is_failure (expected_events E w0 src_files dist_files));
      simpl; split; intros; (done || lia).
  - intros src dst Hev.
    apply copy_event_inv in Hev as (n & Hn & Hd & -> & -> & Hok).
    destruct (copy_exn E w0 n) as [e|] eqn:Hexn; [|done].
    exists n, e. split_and!; [done..|]. by apply copy_failure_logged.
  - intros p Hev.
    apply remove_event_inv in Hev as (n & Hd & Hn & -> & Hok).
    destruct (remove_exn E w0 n) as [e|] eqn:Hexn; [|done].
    exists n, e. split; [done|]. by apply remove_failure_logged.
Qed.

Lemma failures_do_not_stop_the_pass_witness :
  snapshot Examples.disk_full Examples.scenario
  = Run (Ret ({["a.txt"; "b.txt"]}, {["b.txt"; "c.txt"]})) Examples.scenario
        Examples.scenario_listings
  ∧ ∃ (was_error : bool) (w' : world) (t : list event),
      make_re_backup_sync Examples.disk_full Examples.scenario
      = Run (Ret was_error) w' (Examples.scenario_listings ++ t)
      ∧ (∀ n, n ∈ ({["a.txt"; "b.txt"]} : gset string) →
              n ∉ ({["b.txt"; "c.txt"]} : gset string) →
              count (is_copy_of n) t = 1%nat)
      ∧ (∀ n, n ∈ ({["b.txt"; "c.txt"]} : gset string) →
              n ∉ ({["a.txt"; "b.txt"]} : gset string) →
              count (is_remove_of n) t = 1%nat)
      ∧ (was_error = true ↔ count is_failure t ≠ 0%nat)
      ∧ (∀ src dst, EvCopy src dst false ∈ t →
           ∃ n e, src = os_path_join SRC_DIRECTORY n
                  ∧ dst = os_path_join DIST_DIRECTORY n
                  ∧ EvLog ERROR ("Failed to copy file: " +:+ n +:+ ", " +:+ exn_str e) ∈ t)
      ∧ (∀ p, EvRemove p false ∈ t →
           ∃ n e, p = os_path_join DIST_DIRECTORY n
                  ∧ EvLog ERROR ("Failed to remove file: " +:+ n +:+ ", " +:+ exn_str e) ∈ t).
Proof.
  split; [reflexivity|].
  apply (failures_do_not_stop_the_pass Examples.disk_full Examples.scenario
           Examples.scenario).
  reflexivity.
Defined.

(** ** C4 *)

(** C4. Over the whole trace of a cycle: without a failed copy or delete
    there is no alert of any kind; with at least one, however many, there
    is exactly one sound alert, which is the error sound, and exactly one
    attempt to speak; and every alert comes after the last copy and the
    last delete. *)
Theorem alerts_exactly_when_error (E : env) (audio_alert : NotificationController)
    (timeaut_minutes : Z) (w : world) :
  let t := emitted (make_re_backup_cycle E audio_alert timeaut_minutes w) in
  (count is_failure t = 0%nat →
   count is_sound_alert t = 0%nat ∧ count is_spoken_alert t = 0%nat)
  ∧ (count is_failure t ≠ 0%nat →
     count is_sound_alert t = 1%nat ∧ count is_error_sound t = 1%nat
     ∧ count is_speech_attempt t = 1%nat)
  ∧ (∃ t1 t2, t = t1 ++ t2
              ∧ count is_sound_alert t1 = 0%nat ∧ count is_spoken_alert t1 = 0%nat
              ∧ count is_copy t2 = 0%nat ∧ count is_remove t2 = 0%nat).
Proof.
  destruct (snapshot_cases E w) as [(S & D & w0 & t0 & Hs)|[e He]].
  - rewrite (cycle_run_ok E _ _ w w0 S D t0 Hs). cbn [emitted].
    destruct (snapshot_grows E w w0 S D t0 Hs) as [_ Hpre].
    pose proof (expected_events_sync E w0 S D) as Hsync.
    pose proof (expected_error_count E w0 S D) as Herr.
    destruct (alert_and_sleep_effect E audio_alert timeaut_minutes
                (expected_error E w0 S D) (set_fs (expected_fs E w0 S D) w0))
      as (Hev & _ & _ & Hsnd & Hes & Hsp & Hnone).
    set (t2 := emitted (alert_and_sleep E audio_alert timeaut_minutes
                          (expected_error E w0 S D) (set_fs (expected_fs E w0 S D) w0)))
      in *.
    assert (Hfail : count is_failure ((t0 ++ expected_events E w0 S D) ++ t2)
                    = count is_failure (expected_events E w0 S D)).
    { rewrite !count_app.
      rewrite (count_Forall_zero _ _ t0 Hpre) by (by intros []).
      rewrite (count_Forall_zero _ _ t2 Hev) by (by intros []). lia. }
    assert (Hquiet : ∀ P, (∀ e, is_prelude e → P e = false) →
                          (∀ e, is_sync e → P e = false) →
                          count P (t0 ++ expected_events E w0 S D) = 0%nat).
    { intros P H1 H2. rewrite count_app.
      by rewrite (count_Forall_zero _ _ t0 Hpre), (count_Forall_zero _ _ _ Hsync). }
    split_and!.
    + rewrite Hfail. intros H0. rewrite H0 in Herr. simpl in Herr.
      rewrite Herr in *.
      rewrite !(count_app _ (t0 ++ expected_events E w0 S D) t2).
      rewrite !Hquiet, Hsnd, Hnone by (done || by intros []). done.
    + rewrite Hfail. intros H0.
      destruct (count is_failure (expected_events E w0 S D)); [done|].
      simpl in Herr. rewrite Herr in *.
      rewrite !(count_app _ (t0 ++ expected_events E w0 S D) t2).
      rewrite !Hquiet, Hsnd, Hes, Hsp by (by intros []). done.
    + exists (t0 ++ expected_events E w0 S D), t2. split_and!; [done| | | |].
      * apply Hquiet; by intros [].
      * apply Hquiet; by intros [].
      * apply (count_Forall_zero _ _ t2 Hev). by intros [].
      * apply (count_Forall_zero _ _ t2 Hev). by intros [].
  - rewrite (cycle_run_raise E _ _ w e He). cbn [emitted].
    destruct (snapshot_within E w) as (_ & Hpre & _).
    split_and!.
    + intros _. by rewrite !(count_Forall_zero _ _ _ Hpre) by (by intros []).
    + by rewrite (count_Forall_zero _ _ _ Hpre) by (by intros []).
    + exists (emitted (snapshot E w)), []. rewrite app_nil_r.
      by rewrite !(count_Forall_zero _ _ _ Hpre) by (by intros []).
Qed.

(** Both cases occur: the scenario of the specification runs without
    failure and without alert; on a full disk the copy of [a.txt] fails and
    the cycle alerts once and speaks. *)
Example quiet_cycle_has_no_alert :
  let t := emitted (make_re_backup_cycle Examples.quiet Examples.controller 60
                      Examples.scenario) in
  count is_failure t = 0%nat
  ∧ count is_sound_alert t = 0%nat ∧ count is_spoken_alert t = 0%nat.
Proof. by vm_compute. Qed.

Example disk_full_cycle_alerts_once :
  let t := emitted (make_re_backup_cycle Examples.disk_full Examples.controller 60
                      Examples.scenario) in
  count is_failure t = 1%nat
  ∧ count is_sound_alert t = 1%nat ∧ count is_speech_attempt t = 1%nat
  ∧ count (λ e, bool_decide (e = EvSpoken "backup error")) t = 1%nat.
Proof. by vm_compute. Qed.

(** ** C5 *)

(** C5. Frame: a name listed on both sides at the start of a cycle is the
    target of no copy and of no delete in that cycle, and at the end of the
    cycle the destination file and the source file of that name are what
    they were at its start, whatever their contents and times. *)
Theorem common_files_are_not_touched (E : env) (audio_alert : NotificationController)
    (timeaut_minutes : Z) (w w0 : world) (src_files dist_files : gset string)
    (t0 : list event) (n : string) :
  snapshot E w = Run (Ret (src_files, dist_files)) w0 t0 →
  n ∈ src_files → n ∈ dist_files →
  let r := make_re_backup_cycle E audio_alert timeaut_minutes w in
  count (touches (os_path_join DIST_DIRECTORY n)) (emitted r) = 0%nat
  ∧ fs (final r) !! os_path_join DIST_DIRECTORY n
    = fs w !! os_path_join DIST_DIRECTORY n
  ∧ fs (final r) !! os_path_join SRC_DIRECTORY n
    = fs w !! os_path_join SRC_DIRECTORY n.
Proof.
  intros Hs Hn Hd. rewrite (cycle_run_ok E _ _ w w0 _ _ t0 Hs). cbn [emitted final].
  destruct (snapshot_grows E w w0 _ _ t0 Hs) as [Hg Hpre].
  destruct (alert_and_sleep_effect E audio_alert timeaut_minutes
              (expected_error E w0 src_files dist_files)
              (set_fs (expected_fs E w0 src_files dist_files) w0))
    as (Hev & Hfs & _).
  split_and!.
  - rewrite !count_app, count_touches_both by done.
    rewrite (count_Forall_zero _ _ t0 Hpre) by (by intros []).
    by rewrite (count_Forall_zero _ _ _ Hev) by (by intros []).
  - rewrite Hfs. simpl. rewrite expected_fs_both by done.
    by apply grows_dist_child.
  - rewrite Hfs. simpl. rewrite expected_fs_other by (intros; apply src_not_dist).
    by apply grows_src_child.
Qed.

Lemma common_files_are_not_touched_witness :
  snapshot Examples.quiet Examples.scenario
  = Run (Ret ({["a.txt"; "b.txt"]}, {["b.txt"; "c.txt"]})) Examples.scenario
        Examples.scenario_listings
  ∧ "b.txt" ∈ ({["a.txt"; "b.txt"]} : gset string)
  ∧ "b.txt" ∈ ({["b.txt"; "c.txt"]} : gset string)
  ∧ let r := make_re_backup_cycle Examples.quiet Examples.controller 60
               Examples.scenario in
    count (touches (os_path_join DIST_DIRECTORY "b.txt")) (emitted r) = 0%nat
    ∧ fs (final r) !! os_path_join DIST_DIRECTORY "b.txt"
      = fs Examples.scenario !! os_path_join DIST_DIRECTORY "b.txt"
    ∧ fs (final r) !! os_path_join SRC_DIRECTORY "b.txt"
      = fs Examples.scenario !! os_path_join SRC_DIRECTORY "b.txt".
Proof.
  split; [reflexivity|]. split; [apply (bool_decide_unpack _); vm_compute; reflexivity|].
  split; [apply (bool_decide_unpack _); vm_compute; reflexivity|].
  apply (common_files_are_not_touched Examples.quiet Examples.controller 60
           Examples.scenario Examples.scenario {["a.txt"; "b.txt"]}
           {["b.txt"; "c.txt"]} Examples.scenario_listings "b.txt").
  - reflexivity.
  - apply (bool_decide_unpack _); vm_compute; reflexivity.
  - apply (bool_decide_unpack _); vm_compute; reflexivity.
Defined.

(** ** C6 *)

(** C6. A controller made from three default paths keeps them and derives
    each custom path as the base name of the matching default, a bare name
    with no directory part, hence relative to the working directory.  Each of
    the three alerts tries the custom sound first; it goes on to the
    default sound exactly when that attempt returned false, and when the
    custom sound played the default is not attempted. *)
Theorem custom_sound_first_default_on_failure (E : env) (fuel : nat)
    (success error warning : path) (w : world) :
  let self := NotificationController_init success error warning in
  (custom_success_sound_path self = os_path_basename success
   ∧ custom_warning_sound_path self = os_path_basename warning
   ∧ custom_error_sound_path self = os_path_basename error
   ∧ default_success_sound_path self = success
   ∧ default_warning_sound_path self = warning
   ∧ default_error_sound_path self = error)
  ∧ ((length (custom_success_sound_path self) ≤ 1)%nat
     ∧ (length (custom_warning_sound_path self) ≤ 1)%nat
     ∧ (length (custom_error_sound_path self) ≤ 1)%nat)
  ∧ falls_back E fuel self (os_path_basename success) success w
      (_alert_success E fuel self w)
  ∧ falls_back E fuel self (os_path_basename warning) warning w
      (_alert_warning E fuel self w)
  ∧ falls_back E fuel self (os_path_basename error) error w
      (_alert_error E fuel self w)
  ∧ (∀ b, res (alert_sound E fuel self (os_path_basename error) w) = Ret b →
          res (_alert_error E fuel self w)
          = if b then Ret true
            else res (alert_sound E fuel self error
                        (final (alert_sound E fuel self (os_path_basename error) w)))).
Proof.
  intros self. split_and!; try done; try apply os_path_basename_length.
  - apply falls_back_bool.
  - apply falls_back_unit.
  - apply falls_back_bool.
  - intros b Hb. unfold _alert_error. rewrite bind_run. cbn [custom_error_sound_path self
      NotificationController_init]. rewrite Hb. by destruct b.
Qed.

(** The controller of [make_re_backup]: the custom error sound is
    [bad.mp3] in the working directory, the default is [data/bad.mp3]. *)
Example controller_paths :
  custom_error_sound_path Examples.controller = ["bad.mp3"]
  ∧ default_error_sound_path Examples.controller = ["data"; "bad.mp3"].
Proof. by split. Qed.

(** ** C7 *)

(** C7, the part that holds: [alert_sound] returns a boolean and never
    raises, and with fuel for the length of the sound it returns. *)
Lemma alert_sound_is_total (E : env) (self : NotificationController)
    (sound_file_path : path) (w : world) :
  (∀ fuel e, res (alert_sound E fuel self sound_file_path w) ≠ Raise e)
  ∧ ∀ fuel, (Z.to_nat (playing_time E w sound_file_path) < fuel)%nat →
            ∃ b, res (alert_sound E fuel self sound_file_path w) = Ret b.
Proof.
  split; [intros; apply alert_sound_never_raises|intros; by apply alert_sound_returns].
Qed.

(** C7, where the code departs from it: the custom sound [bad.mp3] is not
    in the working directory; the call opens the mixer, fails to load,
    returns false, and leaves the mixer initialised: [quit] is not
    called. *)
Theorem alert_sound_failure_keeps_the_mixer :
  mixer_ready Examples.first_run = false
  ∧ alert_sound Examples.quiet 10 Examples.controller ["bad.mp3"] Examples.first_run
    = Run (Ret false) (set_mixer true None 0 Examples.first_run)
          [EvMixerInit true; EvMusicLoad ["bad.mp3"] false]
  ∧ mixer_ready
      (final (alert_sound Examples.quiet 10 Examples.controller ["bad.mp3"]
                Examples.first_run)) = true.
Proof. split_and!; reflexivity. Qed.

(** On the success path the mixer is released. *)
Example alert_sound_success_releases_the_mixer :
  alert_sound Examples.quiet 10 Examples.controller ["data"; "bad.mp3"]
    Examples.first_run
  = Run (Ret true) (advance 3 Examples.first_run)
        [EvMixerInit true; EvMusicLoad ["data"; "bad.mp3"] true; EvMusicPlay true;
         EvSleep 1; EvSleep 1; EvSleep 1; EvMusicStop true; EvMixerQuit true].
Proof. reflexivity. Qed.

(** After the failed call the next call on a valid file plays: its [init]
    finds the mixer already initialised. *)
Example alert_sound_after_failure :
  res (alert_sound Examples.quiet 10 Examples.controller ["data"; "bad.mp3"]
         (final (alert_sound Examples.quiet 10 Examples.controller ["bad.mp3"]
                   Examples.first_run)))
  = Ret true.
Proof. reflexivity. Qed.

(** ** C8 *)

(** C8, as stated, fails: in the scenario of the specification [a.txt] is
    copied, and the copy does not carry the modification time of the
    source. *)
Lemma copy_does_not_preserve_mtime :
  ¬ copies_preserve_metadata Examples.quiet Examples.scenario.
Proof.
  intros H.
  specialize (H (os_path_join SRC_DIRECTORY "a.txt") (os_path_join DIST_DIRECTORY "a.txt")).
  assert (Hcopied : fs (final (make_re_backup_sync Examples.quiet Examples.scenario))
                      !! os_path_join DIST_DIRECTORY "a.txt"
                    = Some (Regular (File "alpha" 420 432000))) by reflexivity.
  assert (Hsource : fs Examples.scenario !! os_path_join SRC_DIRECTORY "a.txt"
                    = Some (Regular (File "alpha" 420 100))) by reflexivity.
  rewrite Hcopied, Hsource in H.
  assert (Hneq : Some (Regular (File "alpha" 420 432000))
                 ≠ Some (Regular (File "alpha" 420 100))) by discriminate.
  apply Hneq, H. apply (bool_decide_unpack _). vm_compute. reflexivity.
Qed.

(** C8, amended. Every copy performed by a pass writes at the destination
    a regular file with the data and the permission bits of the source
    file; its modification time is the time of the copy. *)
Theorem copy_keeps_data_and_mode (E : env) (w : world) (src dst : path) :
  EvCopy src dst true ∈ emitted (make_re_backup_sync E w) →
  ∃ f, fs w !! src = Some (Regular f)
       ∧ fs (final (make_re_backup_sync E w)) !! dst
         = Some (Regular (File (data f) (mode f) (clock w))).
Proof.
  intros Hev. destruct (snapshot_cases E w) as [(S & D & w0 & t0 & Hs)|[e He]].
  - rewrite (make_re_backup_sync_run E w w0 S D t0 Hs) in *. cbn [emitted final] in *.
    destruct (snapshot_grows E w w0 S D t0 Hs) as [Hg Hpre].
    apply elem_of_app in Hev as [Hev|Hev].
    { rewrite Forall_forall in Hpre. by apply Hpre in Hev. }
    apply copy_event_inv in Hev as (n & Hn & Hd & -> & -> & Hok).
    destruct (copy_exn E w0 n) as [?|] eqn:Hexn; [done|].
    destruct (copy_exn_None E w0 n Hexn) as (f & Hf & Hcp).
    exists f. split.
    + by rewrite <- (grows_src_child w w0 n Hg).
    + simpl. rewrite (expected_fs_copied E w0 S D) by done.
      rewrite Hcp. destruct Hg as (Hsame & _).
      by rewrite (same_but_fs_clock w w0 Hsame).
  - rewrite (make_re_backup_sync_raise E w e He) in Hev. cbn [emitted] in Hev.
    destruct (snapshot_within E w) as (_ & Hpre & _).
    rewrite Forall_forall in Hpre. by apply Hpre in Hev.
Qed.

Lemma copy_keeps_data_and_mode_witness :
  EvCopy (os_path_join SRC_DIRECTORY "a.txt") (os_path_join DIST_DIRECTORY "a.txt") true
  ∈ emitted (make_re_backup_sync Examples.quiet Examples.scenario)
  ∧ ∃ f, fs Examples.scenario !! os_path_join SRC_DIRECTORY "a.txt" = Some (Regular f)
         ∧ fs (final (make_re_backup_sync Examples.quiet Examples.scenario))
             !! os_path_join DIST_DIRECTORY "a.txt"
           = Some (Regular (File (data f) (mode f) (clock Examples.scenario))).
Proof.
  split; [apply (bool_decide_unpack _); vm_compute; reflexivity|].
  apply (copy_keeps_data_and_mode Examples.quiet Examples.scenario).
  apply (bool_decide_unpack _); vm_compute; reflexivity.
Defined.

(** ** C9 *)

(** C9. When a cycle starts without the destination directory, the first
    thing it does is [makedirs]: nothing but directory creation happens
    until it is over.  If it succeeds, the destination and each of its
    parents is a directory, the listings are taken in that world, and the
    listing of the source comes right after.  If it fails, the exception is
    the outcome of the cycle and of [make_re_backup]: nothing is listed,
    copied or deleted, and the loop is over. *)
Theorem destination_is_made_first (E : env) (audio_alert : NotificationController)
    (timeaut_minutes : Z) (w : world) :
  fs w !! DIST_DIRECTORY = None → fs_wf (fs w) →
  let mk := os_makedirs E DIST_DIRECTORY w in
  let r := make_re_backup_cycle E audio_alert timeaut_minutes w in
  Forall (λ e, is_mkdir e) (emitted mk)
  ∧ (res mk = Ret () →
     (∀ q, q `prefix_of` DIST_DIRECTORY → q ≠ [] → fs (final mk) !! q = Some Directory)
     ∧ final (snapshot E w) = final mk
     ∧ ∃ ok rest, emitted r = emitted mk ++ EvListdir SRC_DIRECTORY ok :: rest)
  ∧ (∀ e, res mk = Raise e →
     r = Run (Raise e) (final mk) (emitted mk)
     ∧ ∀ fuel, make_re_backup E (S fuel) timeaut_minutes w
               = Run (Raise e) (final mk) (emitted mk)).
Proof.
  intros Habs Hwf mk r.
  destruct (os_makedirs_effect E DIST_DIRECTORY w) as (_ & Hev & _ & _ & Hwf' & Hdir).
  pose proof (snapshot_absent E w Habs) as Hsnap. cbn zeta in Hsnap.
  fold mk in Hev, Hwf', Hdir, Hsnap. split_and!.
  - done.
  - intros Hret. rewrite Hret in Hsnap. destruct Hsnap as (Hfin & ok & rest & Hem).
    specialize (Hdir Hret). split_and!.
    + intros q Hq Hne. destruct (decide (q = DIST_DIRECTORY)) as [->|Hneq]; [done|].
      apply (fs_wf_ancestors (fs (final mk)) DIST_DIRECTORY q);
        [by apply Hwf'|by rewrite Hdir|done|done|done].
    + done.
    + subst r.
      destruct (cycle_emitted E audio_alert timeaut_minutes w) as [t1 ->].
      destruct (sync_emitted E w) as [t2 ->].
      rewrite Hem, <- !app_assoc. simpl. by eexists _, _.
  - intros e Hraise. rewrite Hraise in Hsnap.
    assert (Hr : ∀ a, make_re_backup_cycle E a timeaut_minutes w
                      = Run (Raise e) (final mk) (emitted mk)).
    { intros a. rewrite (cycle_run_raise E a timeaut_minutes w e) by (by rewrite Hsnap).
      by rewrite Hsnap. }
    split; [apply Hr|]. intros fuel.
    rewrite (make_re_backup_raise E fuel timeaut_minutes w e); by rewrite Hr.
Qed.

Lemma destination_is_made_first_witness :
  fs Examples.first_run !! DIST_DIRECTORY = None
  ∧ fs_wf (fs Examples.first_run)
  ∧ let mk := os_makedirs Examples.quiet DIST_DIRECTORY Examples.first_run in
    let r := make_re_backup_cycle Examples.quiet Examples.controller 60
               Examples.first_run in
    Forall (λ e, is_mkdir e) (emitted mk)
    ∧ (res mk = Ret () →
       (∀ q, q `prefix_of` DIST_DIRECTORY → q ≠ [] → fs (final mk) !! q = Some Directory)
       ∧ final (snapshot Examples.quiet Examples.first_run) = final mk
       ∧ ∃ ok rest, emitted r = emitted mk ++ EvListdir SRC_DIRECTORY ok :: rest)
    ∧ (∀ e, res mk = Raise e →
       r = Run (Raise e) (final mk) (emitted mk)
       ∧ ∀ fuel, make_re_backup Examples.quiet (S fuel) 60 Examples.first_run
                 = Run (Raise e) (final mk) (emitted mk)).
Proof.
  split; [reflexivity|].
  split; [apply (bool_decide_unpack _); vm_compute; reflexivity|].
  apply (destination_is_made_first Examples.quiet Examples.controller 60
           Examples.first_run).
  - reflexivity.
  - apply (bool_decide_unpack _); vm_compute; reflexivity.
Defined.

(** On a read-only disk the first [mkdir] fails and that is all that
    happens. *)
Example read_only_ends_the_loop :
  make_re_backup Examples.read_only 3 60 Examples.first_run
  = Run (Raise (Exn "PermissionError" "read-only file system")) Examples.first_run
        [EvMkdir ["A:"] false].
Proof. reflexivity. Qed.

(** ** C10 *)

(** C10. [alert_msg] handles no exception: whatever the message, a failure
    of the speech engine is raised to the caller.  The loop calls it
    outside any [try]: in a cycle with a failed copy or delete, a speech
    engine that fails when the spoken alert is due ends [make_re_backup]
    with that exception. *)
Theorem speech_failure_ends_the_loop (E : env) (timeaut_minutes : Z) (w : world)
    (e : exn) :
  count is_failure (emitted (make_re_backup_sync E w)) ≠ 0%nat →
  tts_fault E (clock w + seconds 1) = Some e →
  (∀ self message w',
     tts_fault E (clock w') = Some e → res (alert_msg E self message w') = Raise e)
  ∧ ∀ fuel, res (make_re_backup E (S fuel) timeaut_minutes w) = Raise e.
Proof.
  intros Hfail Htts. split.
  - intros self message w' Hf. by rewrite alert_msg_res, Hf.
  - intros fuel.
    destruct (snapshot_cases E w) as [(S & D & w0 & t0 & Hs)|[e' He]].
    + rewrite (make_re_backup_sync_run E w w0 S D t0 Hs) in Hfail.
      cbn [emitted] in Hfail.
      destruct (snapshot_grows E w w0 S D t0 Hs) as [(Hsame & _) Hpre].
      rewrite count_app, (count_Forall_zero _ _ t0 Hpre) in Hfail by (by intros []).
      pose proof (expected_error_count E w0 S D) as Herr.
      destruct (count is_failure (expected_events E w0 S D)); [done|].
      simpl in Herr.
      assert (Hr : ∀ a, res (make_re_backup_cycle E a timeaut_minutes w) = Raise e).
      { intros a. rewrite (cycle_run_ok E a timeaut_minutes w w0 S D t0 Hs).
        cbn [res]. rewrite Herr. apply alert_and_sleep_raise.
        cbn [set_fs clock]. by rewrite (same_but_fs_clock w w0 Hsame). }
      rewrite (make_re_backup_raise E fuel timeaut_minutes w e); [done|apply Hr].
    + rewrite (make_re_backup_sync_raise E w e' He) in Hfail. cbn [emitted] in Hfail.
      destruct (snapshot_within E w) as (_ & Hpre & _).
      by rewrite (count_Forall_zero _ _ _ Hpre) in Hfail by (by intros []).
Qed.

Lemma speech_failure_ends_the_loop_witness :
  count is_failure (emitted (make_re_backup_sync Examples.disk_full_mute Examples.scenario))
  ≠ 0%nat
  ∧ tts_fault Examples.disk_full_mute (clock Examples.scenario + seconds 1)
    = Some (Exn "RuntimeError" "no speech driver")
  ∧ (∀ self message w',
       tts_fault Examples.disk_full_mute (clock w')
       = Some (Exn "RuntimeError" "no speech driver") →
       res (alert_msg Examples.disk_full_mute self message w')
       = Raise (Exn "RuntimeError" "no speech driver"))
  ∧ ∀ fuel, res (make_re_backup Examples.disk_full_mute (S fuel) 60 Examples.scenario)
            = Raise (Exn "RuntimeError" "no speech driver").
Proof.
  split; [by vm_compute|]. split; [reflexivity|].
  apply (speech_failure_ends_the_loop Examples.disk_full_mute 60 Examples.scenario).
  - by vm_compute.
  - reflexivity.
Defined.

(** * Further properties *)

(** ** The shape of one turn *)

Section Shape.
Context (E : env) (audio_alert : NotificationController) (timeaut_minutes : Z).

(** Either the listings are taken, and the turn is the snapshot, the two
    loops and lines 108-112; or the snapshot raises and the turn is the
    snapshot. *)
Lemma cycle_shape (w : world) :
  let r := make_re_backup_cycle E audio_alert timeaut_minutes w in
  (∃ S D w0 t0 t2,
      snapshot E w = Run (Ret (S, D)) w0 t0
      ∧ snapshot_at w0 S D
      ∧ grows DIST_DIRECTORY w w0
      ∧ Forall (λ e, is_prelude e) t0
      ∧ Forall (λ e, is_alert_or_sleep e) t2
      ∧ emitted r = (t0 ++ expected_events E w0 S D) ++ t2
      ∧ fs (final r) = expected_fs E w0 S D (fs w0))
  ∨ (∃ e, res r = Raise e
          ∧ Forall (λ e, is_prelude e) (emitted r)
          ∧ grows DIST_DIRECTORY w (final r)).
Proof.
  destruct (snapshot_cases E w) as [(S & D & w0 & t0 & Hs)|[e He]].
  - left. rewrite (cycle_run_ok E _ _ w w0 S D t0 Hs). cbn [emitted final].
    destruct (snapshot_grows E w w0 S D t0 Hs) as [Hg Hpre].
    destruct (alert_and_sleep_effect E audio_alert timeaut_minutes
                (expected_error E w0 S D) (set_fs (expected_fs E w0 S D) w0))
      as (Hev & Hfs & _).
    exists S, D, w0, t0. eexists. split_and!; try done.
    by eapply snapshot_Ret.
  - right. rewrite (cycle_run_raise E _ _ w e He). cbn [res emitted final].
    destruct (snapshot_within E w) as (Hg & Hpre & _). by exists e.
Qed.

(** A copy or a delete in the trace of a turn is one of the two loops. *)
Lemma cycle_sync_event (w : world) (ev : event) :
  is_copy ev || is_remove ev = true →
  ev ∈ emitted (make_re_backup_cycle E audio_alert timeaut_minutes w) →
  ∃ S D w0 t0,
    snapshot E w = Run (Ret (S, D)) w0 t0
    ∧ snapshot_at w0 S D
    ∧ grows DIST_DIRECTORY w w0
    ∧ ev ∈ expected_events E w0 S D
    ∧ (∀ ev', ev' ∈ expected_events E w0 S D →
              ev' ∈ emitted (make_re_backup_cycle E audio_alert timeaut_minutes w)).
Proof.
  intros Hkind Hin.
  destruct (cycle_shape w) as [(S & D & w0 & t0 & t2 & Hs & Hat & Hg & Hpre & Hal & Hem & _)
                              |(e & _ & Hpre & _)].
  - rewrite Hem in Hin. exists S, D, w0, t0. split_and!; try done.
    + apply elem_of_app in Hin as [Hin|Hin]; [apply elem_of_app in Hin as [Hin|Hin]|].
      * rewrite Forall_forall in Hpre. apply Hpre in Hin. by destruct ev.
      * done.
      * rewrite Forall_forall in Hal. apply Hal in Hin. by destruct ev.
    + intros ev' Hev'. rewrite Hem. apply elem_of_app. left. apply elem_of_app. by right.
  - rewrite Forall_forall in Hpre. apply Hpre in Hin. by destruct ev.
Qed.

End Shape.

(** ** What a turn writes, copies and deletes *)

(** X1. A turn writes nowhere but in the destination: a path that is
    neither an entry of the destination directory nor that directory or
    one of its parents holds at the end of the turn what it held at its
    start, whatever the outcome of the turn.  In particular the source is
    never written. *)
Theorem cycle_writes_only_in_destination (E : env)
    (audio_alert : NotificationController) (timeaut_minutes : Z) (w : world)
    (p : path) :
  (∀ n, p ≠ os_path_join DIST_DIRECTORY n) →
  ¬ p `prefix_of` DIST_DIRECTORY →
  fs (final (make_re_backup_cycle E audio_alert timeaut_minutes w)) !! p = fs w !! p.
Proof.
  intros Hp Hpre.
  assert (Hg : ∀ w', grows DIST_DIRECTORY w w' → fs w' !! p = fs w !! p).
  { intros w' (_ & Hf & _). by destruct (Hf p) as [?|(_ & _ & ? & _)]. }
  destruct (cycle_shape E audio_alert timeaut_minutes w)
    as [(S & D & w0 & t0 & t2 & _ & _ & Hgr & _ & _ & _ & Hfs)|(e & _ & _ & Hgr)].
  - rewrite Hfs, expected_fs_other by done. by apply Hg.
  - by apply Hg.
Qed.

Lemma cycle_writes_only_in_destination_witness :
  (∀ n, os_path_join SRC_DIRECTORY "b.txt" ≠ os_path_join DIST_DIRECTORY n)
  ∧ ¬ os_path_join SRC_DIRECTORY "b.txt" `prefix_of` DIST_DIRECTORY
  ∧ fs (final (make_re_backup_cycle Examples.disk_full Examples.controller 60
                 Examples.scenario)) !! os_path_join SRC_DIRECTORY "b.txt"
    = fs Examples.scenario !! os_path_join SRC_DIRECTORY "b.txt".
Proof.
  assert (H1 : ∀ n, os_path_join SRC_DIRECTORY "b.txt" ≠ os_path_join DIST_DIRECTORY n)
    by (intros n; discriminate).
  assert (H2 : ¬ os_path_join SRC_DIRECTORY "b.txt" `prefix_of` DIST_DIRECTORY)
    by (intros [k Hk]; discriminate Hk).
  split; [exact H1|]. split; [exact H2|].
  exact (cycle_writes_only_in_destination Examples.disk_full Examples.controller 60
           Examples.scenario (os_path_join SRC_DIRECTORY "b.txt") H1 H2).
Defined.

(** X2. A turn deletes nothing but stale destination files: every delete
    it attempts is on an entry of the destination directory that existed
    at the start of the turn and whose name the source did not have. *)
Theorem cycle_deletes_only_stale_files (E : env)
    (audio_alert : NotificationController) (timeaut_minutes : Z) (w : world)
    (p : path) (ok : bool) :
  EvRemove p ok ∈ emitted (make_re_backup_cycle E audio_alert timeaut_minutes w) →
  ∃ n, p = os_path_join DIST_DIRECTORY n
       ∧ is_Some (fs w !! os_path_join DIST_DIRECTORY n)
       ∧ fs w !! os_path_join SRC_DIRECTORY n = None.
Proof.
  intros Hin.
  apply cycle_sync_event in Hin as (S & D & w0 & t0 & Hs & Hat & Hg & Hin & _); [|done].
  apply remove_event_inv in Hin as (n & Hd & Hn & -> & _).
  exists n. split; [done|].
  rewrite <- (grows_dist_child w w0 n Hg), <- (grows_src_child w w0 n Hg).
  destruct Hat as (_ & _ & -> & ->).
  rewrite elem_of_set_children in Hd. rewrite elem_of_set_children in Hn.
  split; [done|]. by apply eq_None_not_Some.
Qed.

Lemma cycle_deletes_only_stale_files_witness :
  EvRemove (os_path_join DIST_DIRECTORY "c.txt") true
  ∈ emitted (make_re_backup_cycle Examples.quiet Examples.controller 60 Examples.scenario)
  ∧ ∃ n, os_path_join DIST_DIRECTORY "c.txt" = os_path_join DIST_DIRECTORY n
         ∧ is_Some (fs Examples.scenario !! os_path_join DIST_DIRECTORY n)
         ∧ fs Examples.scenario !! os_path_join SRC_DIRECTORY n = None.
Proof.
  assert (H : EvRemove (os_path_join DIST_DIRECTORY "c.txt") true
              ∈ emitted (make_re_backup_cycle Examples.quiet Examples.controller 60
                           Examples.scenario))
    by (apply (bool_decide_unpack _); vm_compute; reflexivity).
  split; [exact H|].
  exact (cycle_deletes_only_stale_files Examples.quiet Examples.controller 60
           Examples.scenario _ true H).
Defined.

(** X3. A turn copies nothing but missing files, and never onto an
    existing one: every copy it attempts goes from an entry of the source
    directory to the entry of the same name in the destination directory,
    and at the start of the turn the former existed and the latter did
    not. *)
Theorem cycle_copies_only_missing_files (E : env)
    (audio_alert : NotificationController) (timeaut_minutes : Z) (w : world)
    (src dst : path) (ok : bool) :
  EvCopy src dst ok ∈ emitted (make_re_backup_cycle E audio_alert timeaut_minutes w) →
  ∃ n, src = os_path_join SRC_DIRECTORY n
       ∧ dst = os_path_join DIST_DIRECTORY n
       ∧ is_Some (fs w !! src)
       ∧ fs w !! dst = None.
Proof.
  intros Hin.
  apply cycle_sync_event in Hin as (S & D & w0 & t0 & Hs & Hat & Hg & Hin & _); [|done].
  apply copy_event_inv in Hin as (n & Hn & Hd & -> & -> & _).
  exists n. split; [done|]. split; [done|].
  rewrite <- (grows_dist_child w w0 n Hg), <- (grows_src_child w w0 n Hg).
  destruct Hat as (_ & _ & -> & ->).
  rewrite elem_of_set_children in Hd. rewrite elem_of_set_children in Hn.
  split; [done|]. by apply eq_None_not_Some.
Qed.

Lemma cycle_copies_only_missing_files_witness :
  EvCopy (os_path_join SRC_DIRECTORY "a.txt") (os_path_join DIST_DIRECTORY "a.txt") false
  ∈ emitted (make_re_backup_cycle Examples.disk_full Examples.controller 60
               Examples.scenario)
  ∧ ∃ n, os_path_join SRC_DIRECTORY "a.txt" = os_path_join SRC_DIRECTORY n
         ∧ os_path_join DIST_DIRECTORY "a.txt" = os_path_join DIST_DIRECTORY n
         ∧ is_Some (fs Examples.scenario !! os_path_join SRC_DIRECTORY "a.txt")
         ∧ fs Examples.scenario !! os_path_join DIST_DIRECTORY "a.txt" = None.
Proof.
  assert (H : EvCopy (os_path_join SRC_DIRECTORY "a.txt")
                (os_path_join DIST_DIRECTORY "a.txt") false
              ∈ emitted (make_re_backup_cycle Examples.disk_full Examples.controller 60
                           Examples.scenario))
    by (apply (bool_decide_unpack _); vm_compute; reflexivity).
  split; [exact H|].
  exact (cycle_copies_only_missing_files Examples.disk_full Examples.controller 60
           Examples.scenario _ _ false H).
Defined.

(** X4. Each operation that does not fail takes effect, whatever else
    fails in the same turn: at the end of the turn a name the source
    listed is in the destination unless its copy failed, and a name the
    source did not list is not in the destination unless its delete
    failed. *)
Theorem cycle_makes_partial_progress (E : env)
    (audio_alert : NotificationController) (timeaut_minutes : Z) (w w0 : world)
    (src_files dist_files : gset string) (t0 : list event) :
  snapshot E w = Run (Ret (src_files, dist_files)) w0 t0 →
  let r := make_re_backup_cycle E audio_alert timeaut_minutes w in
  (∀ n, n ∈ src_files →
        EvCopy (os_path_join SRC_DIRECTORY n) (os_path_join DIST_DIRECTORY n) false
        ∉ emitted r →
        is_Some (fs (final r) !! os_path_join DIST_DIRECTORY n))
  ∧ (∀ n, n ∉ src_files →
          EvRemove (os_path_join DIST_DIRECTORY n) false ∉ emitted r →
          fs (final r) !! os_path_join DIST_DIRECTORY n = None).
Proof.
  intros Hs r.
  pose proof (snapshot_Ret E w w0 _ _ t0 Hs) as Hat.
  assert (Hem : ∀ ev, ev ∈ expected_events E w0 src_files dist_files → ev ∈ emitted r).
  { intros ev Hev. subst r. rewrite (cycle_run_ok E _ _ w w0 _ _ t0 Hs).
    cbn [emitted]. apply elem_of_app. left. apply elem_of_app. by right. }
  assert (Hfs : fs (final r) = expected_fs E w0 src_files dist_files (fs w0)).
  { subst r. rewrite (cycle_run_ok E _ _ w w0 _ _ t0 Hs). cbn [final].
    by destruct (alert_and_sleep_effect E audio_alert timeaut_minutes
                   (expected_error E w0 src_files dist_files)
                   (set_fs (expected_fs E w0 src_files dist_files) w0))
      as (_ & -> & _). }
  rewrite Hfs. split.
  - intros n Hn Hno. destruct (decide (n ∈ dist_files)) as [Hd|Hd].
    + rewrite expected_fs_both by done. by rewrite <- (snapshot_at_dist w0 _ _ Hat).
    + destruct (copy_exn E w0 n) as [e|] eqn:Hexn.
      * exfalso. apply Hno, Hem.
        pose proof (copy_event_in E w0 src_files dist_files n Hn Hd) as Hin.
        by rewrite Hexn in Hin.
      * rewrite expected_fs_copied by done.
        destruct (copy_exn_None E w0 n Hexn) as (f & _ & ->). by eexists.
  - intros n Hn Hno. destruct (decide (n ∈ dist_files)) as [Hd|Hd].
    + destruct (remove_exn E w0 n) as [e|] eqn:Hexn.
      * exfalso. apply Hno, Hem.
        pose proof (remove_event_in E w0 src_files dist_files n Hd Hn) as Hin.
        by rewrite Hexn in Hin.
      * by rewrite expected_fs_removed.
    + rewrite expected_fs_neither by done. apply eq_None_not_Some.
      by rewrite <- (snapshot_at_dist w0 _ _ Hat).
Qed.

Lemma cycle_makes_partial_progress_witness :
  snapshot Examples.disk_full Examples.scenario
  = Run (Ret ({["a.txt"; "b.txt"]}, {["b.txt"; "c.txt"]})) Examples.scenario
        Examples.scenario_listings
  ∧ let r := make_re_backup_cycle Examples.disk_full Examples.controller 60
               Examples.scenario in
    (∀ n, n ∈ ({["a.txt"; "b.txt"]} : gset string) →
          EvCopy (os_path_join SRC_DIRECTORY n) (os_path_join DIST_DIRECTORY n) false
          ∉ emitted r →
          is_Some (fs (final r) !! os_path_join DIST_DIRECTORY n))
    ∧ (∀ n, n ∉ ({["a.txt"; "b.txt"]} : gset string) →
            EvRemove (os_path_join DIST_DIRECTORY n) false ∉ emitted r →
            fs (final r) !! os_path_join DIST_DIRECTORY n = None).
Proof.
  split; [reflexivity|].
  apply (cycle_makes_partial_progress Examples.disk_full Examples.controller 60
           Examples.scenario Examples.scenario _ {["b.txt"; "c.txt"]}
           Examples.scenario_listings).
  reflexivity.
Defined.

(** On the full disk the copy of [a.txt] fails and the delete of [c.txt]
    is still done: the destination is left with [b.txt]. *)
Example full_disk_still_deletes :
  set_ (children DIST_DIRECTORY
          (fs (final (make_re_backup_cycle Examples.disk_full Examples.controller 60
                        Examples.scenario))))
  = {["b.txt"]}.
Proof. reflexivity. Qed.

(** X5. The copy phase is over before the delete phase starts: in the
    trace of a turn no copy comes after a delete. *)
Theorem copies_come_before_deletes (E : env) (audio_alert : NotificationController)
    (timeaut_minutes : Z) (w : world) :
  ∃ t1 t2,
    emitted (make_re_backup_cycle E audio_alert timeaut_minutes w) = t1 ++ t2
    ∧ count is_remove t1 = 0%nat
    ∧ count is_copy t2 = 0%nat.
Proof.
  destruct (cycle_shape E audio_alert timeaut_minutes w)
    as [(S & D & w0 & t0 & t2 & _ & _ & _ & Hpre & Hal & Hem & _)|(e & _ & Hpre & _)].
  - exists (t0 ++ flat_map (copy_events E w0 D) (iter (order E) S)),
           (flat_map (remove_events E w0 S) (iter (order E) D) ++ t2).
    split_and!.
    + rewrite Hem. unfold expected_events. by rewrite <- !app_assoc.
    + rewrite count_app, (count_Forall_zero _ _ t0 Hpre) by (by intros []).
      apply count_flat_map_zero. intros x _. rewrite count_copy_events by done.
      by destruct (copy_pending D x).
    + rewrite count_app, (count_Forall_zero _ _ t2 Hal) by (by intros []).
      rewrite Nat.add_0_r.
      apply count_flat_map_zero. intros x _. rewrite count_remove_events by done.
      by destruct (remove_pending S x).
  - eexists _, []. rewrite app_nil_r. split_and!; [done| |done].
    apply (count_Forall_zero _ _ _ Hpre). by intros [].
Qed.



(** ** Subdirectories, and the state a clean turn reaches *)

Lemma expected_fs_failed (E : env) (w0 : world) (S D : gset string)
    (m : gmap path node) (n : string) :
  (n ∈ S → n ∉ D → copy_exn E w0 n ≠ None) →
  (n ∈ D → n ∉ S → remove_exn E w0 n ≠ None) →
  expected_fs E w0 S D m !! os_path_join DIST_DIRECTORY n
  = m !! os_path_join DIST_DIRECTORY n.
Proof.
  intros Hc Hr. unfold expected_fs. rewrite foldl_remove_lookup_ne.
  - apply foldl_copy_lookup_ne. intros x Hx Hd Hexn Heq.
    apply os_path_join_inj in Heq. subst x. apply elem_of_iter in Hx. by apply Hc.
  - intros x Hx Hs Hexn Heq.
    apply os_path_join_inj in Heq. subst x. apply elem_of_iter in Hx. by apply Hr.
Qed.

Lemma snapshot_Ret_cases (E : env) (w : world) (sets : gset string * gset string) :
  res (snapshot E w) = Ret sets →
  ∃ S D w0 t0, snapshot E w = Run (Ret (S, D)) w0 t0.
Proof.
  intros Hres. destruct (snapshot_cases E w) as [?|[e He]]; [done|congruence].
Qed.

(** X7. Subdirectories are not synchronised, they are errors: when the
    listings are taken, a subdirectory of the source that the destination
    lacks, or a subdirectory of the destination that the source lacks,
    sets the error flag of the pass, and the destination entry of that name
    is left as it was (nothing is copied, nothing is removed). *)
Theorem subdirectory_sets_the_error_flag (E : env) (w : world)
    (sets : gset string * gset string) (n : string) :
  res (snapshot E w) = Ret sets →
  (fs w !! os_path_join SRC_DIRECTORY n = Some Directory
   ∧ fs w !! os_path_join DIST_DIRECTORY n = None)
  ∨ (fs w !! os_path_join DIST_DIRECTORY n = Some Directory
     ∧ fs w !! os_path_join SRC_DIRECTORY n = None) →
  res (make_re_backup_sync E w) = Ret true
  ∧ fs (final (make_re_backup_sync E w)) !! os_path_join DIST_DIRECTORY n
    = fs w !! os_path_join DIST_DIRECTORY n.
Proof.
  intros Hres Hdir.
  destruct (snapshot_Ret_cases E w sets Hres) as (S & D & w0 & t0 & Hs).
  rewrite (make_re_backup_sync_run E w w0 S D t0 Hs). cbn [res final set_fs fs].
  destruct (snapshot_grows E w w0 S D t0 Hs) as [Hg _].
  pose proof (snapshot_Ret E w w0 S D t0 Hs) as Hat.
  rewrite <- (grows_dist_child w w0 n Hg).
  rewrite <- !(grows_dist_child w w0 n Hg), <- !(grows_src_child w w0 n Hg) in Hdir.
  assert (HS : n ∈ S ↔ is_Some (fs w0 !! os_path_join SRC_DIRECTORY n)).
  { destruct Hat as (_ & _ & -> & _). apply elem_of_set_children. }
  assert (HD : n ∈ D ↔ is_Some (fs w0 !! os_path_join DIST_DIRECTORY n)).
  { destruct Hat as (_ & _ & _ & ->). apply elem_of_set_children. }
  assert (Hflag : ∀ ev, ev ∈ expected_events E w0 S D → is_failure ev = true →
                        expected_error E w0 S D = true).
  { intros ev Hev Hf. rewrite expected_error_count.
    destruct (count is_failure (expected_events E w0 S D)) eqn:Hc; [|done].
    rewrite count_zero_iff in Hc. specialize (Hc ev Hev). congruence. }
  destruct Hdir as [[Hsrc Hdst]|[Hdst Hsrc]].
  - assert (Hn : n ∈ S) by (apply HS; rewrite Hsrc; by eexists).
    assert (Hd : n ∉ D) by (rewrite HD, Hdst; by intros [? ?]).
    assert (Hexn : copy_exn E w0 n ≠ None).
    { unfold copy_exn. rewrite Hsrc. by destruct (fault E _ _). }
    split.
    + f_equal. eapply Hflag; [apply (copy_event_in E w0 S D n Hn Hd)|].
      simpl. by destruct (copy_exn E w0 n).
    + by apply expected_fs_failed.
  - assert (Hd : n ∈ D) by (apply HD; rewrite Hdst; by eexists).
    assert (Hn : n ∉ S) by (rewrite HS, Hsrc; by intros [? ?]).
    assert (Hexn : remove_exn E w0 n ≠ None).
    { unfold remove_exn. rewrite Hdst. by destruct (fault E _ _). }
    split.
    + f_equal. eapply Hflag; [apply (remove_event_in E w0 S D n Hd Hn)|].
      simpl. by destruct (remove_exn E w0 n).
    + by apply expected_fs_failed.
Qed.

Lemma subdirectory_sets_the_error_flag_witness :
  res (snapshot Examples.quiet Nested.world_)
  = Ret ({["a.txt"; "b.txt"; "old"]}, {["a.txt"; "b.txt"; "tmp"]})
  ∧ ((fs Nested.world_ !! os_path_join SRC_DIRECTORY "old" = Some Directory
      ∧ fs Nested.world_ !! os_path_join DIST_DIRECTORY "old" = None)
     ∨ (fs Nested.world_ !! os_path_join DIST_DIRECTORY "old" = Some Directory
        ∧ fs Nested.world_ !! os_path_join SRC_DIRECTORY "old" = None))
  ∧ res (make_re_backup_sync Examples.quiet Nested.world_) = Ret true
  ∧ fs (final (make_re_backup_sync Examples.quiet Nested.world_))
      !! os_path_join DIST_DIRECTORY "old"
    = fs Nested.world_ !! os_path_join DIST_DIRECTORY "old".
Proof.
  split; [reflexivity|].
  split; [left; split; reflexivity|].
  apply (subdirectory_sets_the_error_flag Examples.quiet Nested.world_
           ({["a.txt"; "b.txt"; "old"]}, {["a.txt"; "b.txt"; "tmp"]}) "old").
  - reflexivity.
  - left; split; reflexivity.
Defined.

(** X8. A turn without a failed copy or delete ends in agreement: the
    source lists what it listed at the start of the turn, and the
    destination lists the same names. *)
Theorem clean_turn_ends_in_agreement (E : env) (audio_alert : NotificationController)
    (timeaut_minutes : Z) (w : world) (sets : gset string * gset string) :
  res (snapshot E w) = Ret sets →
  let r := make_re_backup_cycle E audio_alert timeaut_minutes w in
  count is_failure (emitted r) = 0%nat →
  set_ (children SRC_DIRECTORY (fs (final r))) = set_ (children SRC_DIRECTORY (fs w))
  ∧ set_ (children DIST_DIRECTORY (fs (final r))) = set_ (children SRC_DIRECTORY (fs w)).
Proof.
  intros Hres r.
  destruct (snapshot_Ret_cases E w sets Hres) as (S & D & w0 & t0 & Hs).
  subst r. rewrite (cycle_run_ok E _ _ w w0 S D t0 Hs). cbn [emitted final].
  destruct (alert_and_sleep_effect E audio_alert timeaut_minutes
              (expected_error E w0 S D) (set_fs (expected_fs E w0 S D) w0))
    as (_ & -> & _).
  cbn [set_fs fs]. rewrite !count_app. intros Hclean.
  assert (H0 : count is_failure (expected_events E w0 S D) = 0%nat) by lia.
  destruct (snapshot_grows E w w0 S D t0 Hs) as [Hg _].
  pose proof (snapshot_Ret E w w0 S D t0 Hs) as Hat.
  destruct (grows_children w w0 Hg) as [<- _].
  assert (HS : S = set_ (children SRC_DIRECTORY (fs w0))) by (by destruct Hat as (_ & _ & ? & _)).
  split.
  - apply set_eq. intros n. rewrite !elem_of_set_children.
    change (SRC_DIRECTORY ++ [n]) with (os_path_join SRC_DIRECTORY n).
    by rewrite expected_fs_other by (intros; apply src_not_dist).
  - rewrite <- HS. by apply expected_fs_children.
Qed.

Lemma clean_turn_ends_in_agreement_witness :
  res (snapshot Examples.quiet Examples.scenario)
  = Ret ({["a.txt"; "b.txt"]}, {["b.txt"; "c.txt"]})
  ∧ count is_failure
      (emitted (make_re_backup_cycle Examples.quiet Examples.controller 60
                  Examples.scenario)) = 0%nat
  ∧ set_ (children SRC_DIRECTORY
            (fs (final (make_re_backup_cycle Examples.quiet Examples.controller 60
                          Examples.scenario))))
    = set_ (children SRC_DIRECTORY (fs Examples.scenario))
  ∧ set_ (children DIST_DIRECTORY
            (fs (final (make_re_backup_cycle Examples.quiet Examples.controller 60
                          Examples.scenario))))
    = set_ (children SRC_DIRECTORY (fs Examples.scenario)).
Proof.
  split; [reflexivity|]. split; [by vm_compute|].
  apply (clean_turn_ends_in_agreement Examples.quiet Examples.controller 60
           Examples.scenario ({["a.txt"; "b.txt"]}, {["b.txt"; "c.txt"]})).
  - reflexivity.
  - by vm_compute.
Defined.

(** ** The loop *)

Section Loop.
Context (E : env).

Lemma alert_and_sleep_negative (audio_alert : NotificationController)
    (timeaut_minutes : Z) (was_error : bool) (w : world) :
  timeaut_minutes < 0 →
  ∃ e, res (alert_and_sleep E audio_alert timeaut_minutes was_error w) = Raise e.
Proof.
  intros Hneg.
  assert (Hsleep : ∀ w', ∃ e, res (time_sleep (seconds (timeaut_minutes * 60)) w') = Raise e).
  { intros w'. unfold time_sleep, seconds.
    destruct (Z.ltb_spec (timeaut_minutes * 60 * 10) 0); [by eexists|lia]. }
  unfold alert_and_sleep. destruct was_error.
  - rewrite bind_run, bind_run, alert_error_run. cbn [res final emitted].
    destruct (alert_msg_events E audio_alert "backup error" (advance (seconds 1) w))
      as (_ & _ & _ & Hdiv).
    destruct (res (alert_msg E audio_alert "backup error" (advance (seconds 1) w)))
      as [[]|e|]; cbn [res]; [apply Hsleep|by exists e|done].
  - rewrite bind_run. cbn [mret M_ret res final emitted]. apply Hsleep.
Qed.

Lemma cycle_negative (audio_alert : NotificationController) (timeaut_minutes : Z)
    (w : world) :
  timeaut_minutes < 0 →
  ∃ e, res (make_re_backup_cycle E audio_alert timeaut_minutes w) = Raise e.
Proof.
  intros Hneg. destruct (snapshot_cases E w) as [(S & D & w0 & t0 & Hs)|[e He]].
  - rewrite (cycle_run_ok E _ _ w w0 S D t0 Hs). cbn [res].
    by apply alert_and_sleep_negative.
  - exists e. by rewrite (cycle_run_raise E _ _ w e He).
Qed.





End Loop.

(** X9. An interval below zero ends [make_re_backup] in its first turn:
    for every environment and every state the turn raises (at the latest
    when the sleep refuses the negative length), no second turn starts,
    and the pass of that first turn has been made before. *)
Theorem negative_interval_ends_the_first_turn (E : env) (timeaut_minutes : Z)
    (w : world) :
  timeaut_minutes < 0 →
  ∀ fuel,
    let turn := make_re_backup_cycle E make_re_backup_controller timeaut_minutes w in
    (∃ e, res (make_re_backup E (S fuel) timeaut_minutes w) = Raise e)
    ∧ emitted (make_re_backup E (S fuel) timeaut_minutes w) = emitted turn
    ∧ ∃ rest, emitted turn = emitted (make_re_backup_sync E w) ++ rest.
Proof.
  intros Hneg fuel turn.
  destruct (cycle_negative E make_re_backup_controller timeaut_minutes w Hneg) as [e He].
  rewrite (make_re_backup_raise E fuel timeaut_minutes w e He). cbn [res emitted].
  split; [by exists e|]. split; [done|]. apply cycle_emitted.
Qed.

Lemma negative_interval_ends_the_first_turn_witness :
  -1 < 0
  ∧ ∀ fuel,
      let turn := make_re_backup_cycle Examples.quiet make_re_backup_controller (-1)
                    Examples.scenario in
      (∃ e, res (make_re_backup Examples.quiet (S fuel) (-1) Examples.scenario) = Raise e)
      ∧ emitted (make_re_backup Examples.quiet (S fuel) (-1) Examples.scenario)
        = emitted turn
      ∧ ∃ rest, emitted turn
                = emitted (make_re_backup_sync Examples.quiet Examples.scenario) ++ rest.
Proof.
  split; [lia|].
  apply (negative_interval_ends_the_first_turn Examples.quiet (-1) Examples.scenario).
  lia.
Defined.

(** With nothing else failing the exception is the [ValueError] of
    [time.sleep], raised after the copy and the delete of the turn. *)
Example negative_interval_on_the_scenario :
  res (make_re_backup Examples.quiet 5 (-1) Examples.scenario)
  = Raise (Exn "ValueError" "sleep length must be non-negative")
  ∧ count is_copy (emitted (make_re_backup Examples.quiet 5 (-1) Examples.scenario))
    = 1%nat
  ∧ count is_remove (emitted (make_re_backup Examples.quiet 5 (-1) Examples.scenario))
    = 1%nat.
Proof. by vm_compute. Qed.



(** On the full disk the copy of [a.txt] is attempted again in every
    turn. *)
Example full_disk_retries_every_turn :
  count (is_copy_of "a.txt")
    (emitted (make_re_backup Examples.disk_full 3 60 Examples.scenario)) = 3%nat
  ∧ count is_error_sound
      (emitted (make_re_backup Examples.disk_full 3 60 Examples.scenario)) = 3%nat.
Proof. by vm_compute. Qed.

(** ** Agreement is kept *)

Section Agreement.
Context (E : env).

(** A turn that starts in agreement copies nothing, deletes nothing and
    ends in agreement, whatever its outcome. *)
Lemma synced_cycle_stays (audio_alert : NotificationController)
    (timeaut_minutes : Z) (w : world) :
  set_ (children SRC_DIRECTORY (fs w)) = set_ (children DIST_DIRECTORY (fs w)) →
  count is_copy (emitted (make_re_backup_cycle E audio_alert timeaut_minutes w)) = 0%nat
  ∧ count is_remove (emitted (make_re_backup_cycle E audio_alert timeaut_minutes w))
    = 0%nat
  ∧ set_ (children SRC_DIRECTORY
            (fs (final (make_re_backup_cycle E audio_alert timeaut_minutes w))))
    = set_ (children DIST_DIRECTORY
              (fs (final (make_re_backup_cycle E audio_alert timeaut_minutes w)))).
Proof.
  intros Heq. destruct (snapshot_cases E w) as [(S & D & w0 & t0 & Hs)|[e He]].
  - rewrite (cycle_run_ok E _ _ w w0 S D t0 Hs). cbn [emitted final].
    destruct (snapshot_grows E w w0 S D t0 Hs) as [Hg Hpre].
    destruct (grows_children w w0 Hg) as [HS HD].
    destruct (snapshot_Ret E w w0 S D t0 Hs) as (_ & _ & HS0 & HD0).
    assert (HSD : S = D) by congruence.
    destruct (alert_and_sleep_effect E audio_alert timeaut_minutes
                (expected_error E w0 S D) (set_fs (expected_fs E w0 S D) w0))
      as (Hev & -> & _).
    destruct (count_copy_remove_synced E w0 S D HSD) as [Hc Hr].
    rewrite !count_app, Hc, Hr.
    rewrite !(count_Forall_zero _ _ t0 Hpre) by (by intros []).
    rewrite !(count_Forall_zero _ _ _ Hev) by (by intros []).
    split_and!; [done|done|]. cbn [set_fs fs].
    transitivity (set_ (children SRC_DIRECTORY (fs w0))).
    { apply set_eq. intros n. rewrite !elem_of_set_children.
      change (SRC_DIRECTORY ++ [n]) with (os_path_join SRC_DIRECTORY n).
      by rewrite expected_fs_other by (intros; apply src_not_dist). }
    transitivity (set_ (children DIST_DIRECTORY (fs w0))); [congruence|].
    apply set_eq. intros n. rewrite !elem_of_set_children.
    change (DIST_DIRECTORY ++ [n]) with (os_path_join DIST_DIRECTORY n).
    destruct (decide (n ∈ S)) as [Hin|Hout].
    + rewrite expected_fs_both; [done|done|by rewrite <- HSD].
    + rewrite expected_fs_neither; [done|done|by rewrite <- HSD].
  - rewrite (cycle_run_raise E _ _ w e He). cbn [emitted final].
    destruct (snapshot_within E w) as (Hg & Hpre & _).
    destruct (grows_children w _ Hg) as [HS HD].
    rewrite !(count_Forall_zero _ _ _ Hpre) by (by intros []).
    split_and!; [done|done|congruence].
Qed.

Lemma synced_loop_idle (audio_alert : NotificationController)
    (timeaut_minutes : Z) (fuel : nat) : ∀ w : world,
  set_ (children SRC_DIRECTORY (fs w)) = set_ (children DIST_DIRECTORY (fs w)) →
  count is_copy
    (emitted (while fuel (mret true)
                (make_re_backup_cycle E audio_alert timeaut_minutes) w)) = 0%nat
  ∧ count is_remove
      (emitted (while fuel (mret true)
                  (make_re_backup_cycle E audio_alert timeaut_minutes) w)) = 0%nat.
Proof.
  induction fuel as [|fuel IH]; intros w Heq; [done|].
  cbn [while]. rewrite bind_run. cbn [mret M_ret res final emitted app].
  rewrite bind_run.
  destruct (synced_cycle_stays audio_alert timeaut_minutes w Heq) as (Hc & Hr & Hnext).
  destruct (res (make_re_backup_cycle E audio_alert timeaut_minutes w)) as [[]|e|];
    cbn [emitted]; [|done|done].
  destruct (IH _ Hnext) as [Hc' Hr'].
  by rewrite !count_app, Hc, Hr, Hc', Hr'.
Qed.

End Agreement.

(** ** Playing, and falling back *)

Section Mixer.
Context (E : env).

(** The polling loop only waits: it leaves the files and the mixer as they
    are. *)
Lemma while_busy_keeps (fuel : nat) : ∀ w : world,
  let r := while fuel (pygame_mixer_music_get_busy E) (time_sleep (tenths 1)) w in
  fs (final r) = fs w
  ∧ mixer_ready (final r) = mixer_ready w
  ∧ count is_quit (emitted r) = 0%nat
  ∧ count is_play (emitted r) = 0%nat.
Proof.
  induction fuel as [|fuel IH]; intros w; cbn zeta; [split_and!; reflexivity|].
  cbn [while]. rewrite bind_run.
  assert (Hbusy : ∃ r, pygame_mixer_music_get_busy E w = Run r w []
                       ∧ (r = Ret true ∨ r = Ret false ∨ ∃ e, r = Raise e)).
  { unfold pygame_mixer_music_get_busy.
    destruct (fault E (clock w) SysMusicGetBusy) as [e|].
    { exists (Raise e). split; [done|]. right. right. by exists e. }
    destruct (mixer_ready w).
    2: { eexists. split; [done|]. right. right. by eexists. }
    destruct (0 <? music_busy w); eexists; (split; [done|]); [by left|right; by left]. }
  destruct Hbusy as (r & -> & [->|[->|[e ->]]]); cbn [res final emitted];
    [|done|done].
  rewrite bind_run. cbn [time_sleep tenths Z.ltb Z.compare res final emitted].
  destruct (IH (advance (tenths 1) w)) as (Hfs & Hm & Hq & Hp).
  rewrite !count_app, Hfs, Hm, Hq, Hp. by cbn.
Qed.

(** From the polling loop to the end of the [try] block. *)
Lemma alert_sound_rest (fuel : nat) (w : world) :
  let r := (while fuel (pygame_mixer_music_get_busy E) (time_sleep (tenths 1));;
            pygame_mixer_music_stop E;;
            pygame_mixer_quit E;;
            mret true) w in
  fs (final r) = fs w
  ∧ count is_play (emitted r) = 0%nat
  ∧ match res r with
    | Ret b =>
        b = true ∧ mixer_ready (final r) = false
        ∧ count is_quit (emitted r) = 1%nat
        ∧ last (emitted r) = Some (EvMixerQuit true)
    | Raise _ =>
        mixer_ready (final r) = mixer_ready w ∧ count is_quit (emitted r) = 0%nat
    | Diverge => True
    end.
Proof.
  cbn zeta. rewrite bind_run.
  destruct (while_busy_keeps fuel w) as (Hfs & Hm & Hq & Hp).
  destruct (while fuel _ _ w) as [[[]|e|] w1 t1]; cbn in Hfs, Hm, Hq, Hp;
    cbn [res final emitted]; [|done|done].
  unfold mbind, M_bind, pygame_mixer_music_stop, pygame_mixer_quit.
  destruct (fault E (clock w1) SysMusicStop).
  { cbn. by rewrite !count_app, Hq, Hp. }
  destruct (mixer_ready w1) eqn:Hready.
  2: { cbn. by rewrite !count_app, Hq, Hp, <- Hm. }
  cbn [set_mixer clock]. destruct (fault E (clock w1) SysMixerQuit).
  - cbn. by rewrite !count_app, Hq, Hp, <- Hm.
  - cbn. rewrite !count_app, Hq, Hp. split_and!; try done.
    by rewrite last_app.
Qed.

(** What a call of [alert_sound] has done, by its result. *)
Lemma alert_sound_cases (fuel : nat) (self : NotificationController)
    (sound_file_path : path) (w : world) :
  let r := alert_sound E fuel self sound_file_path w in
  fs (final r) = fs w
  ∧ match res r with
    | Ret true =>
        (∃ f d, fs w !! sound_file_path = Some (Regular f)
                ∧ decode E (data f) = Some d)
        ∧ count is_play (emitted r) = 1%nat
        ∧ count is_quit (emitted r) = 1%nat
        ∧ last (emitted r) = Some (EvMixerQuit true)
        ∧ mixer_ready (final r) = false
    | Ret false =>
        count is_quit (emitted r) = 0%nat
        ∧ (fault E (clock w) SysMixerInit = None → mixer_ready (final r) = true)
    | _ => True
    end.
Proof.
  cbn zeta. unfold alert_sound. rewrite try_except_run, bind_run.
  destruct (pygame_mixer_init E w) as [r1 w1 t1] eqn:H1.
  unfold pygame_mixer_init in H1.
  destruct (fault E (clock w) SysMixerInit); injection H1 as <- <- <-; [by cbn|].
  cbn [res final emitted]. rewrite bind_run.
  destruct (pygame_mixer_music_load E _ _) as [r2 w2 t2] eqn:H2.
  unfold pygame_mixer_music_load in H2. cbn [set_mixer clock mixer_ready fs negb] in H2.
  destruct (fault E (clock w) (SysMusicLoad sound_file_path));
    [injection H2 as <- <- <-; by cbn|].
  destruct (fs w !! sound_file_path) as [[f|]|] eqn:Hfile;
    [|injection H2 as <- <- <-; by cbn..].
  destruct (decode E (data f)) as [d|] eqn:Hdec; injection H2 as <- <- <-; [|by cbn].
  cbn [res final emitted]. rewrite bind_run.
  destruct (pygame_mixer_music_play E _) as [r3 w3 t3] eqn:H3.
  unfold pygame_mixer_music_play in H3. cbn [set_mixer clock mixer_ready music_loaded] in H3.
  destruct (fault E (clock w) SysMusicPlay); injection H3 as <- <- <-; [by cbn|].
  cbn [res final emitted].
  match goal with |- context [(while fuel ?c ?b ≫= ?k) ?w3] =>
    destruct (alert_sound_rest fuel w3) as (Hfs & Hp & Hres);
    destruct ((while fuel c b ≫= k) w3) as [[b'|e|] w4 t4]
  end; cbn in Hfs, Hp, Hres; cbn [res final emitted].
  - destruct Hres as (-> & Hm & Hq & Hlast). cbn. rewrite Hp, Hq.
    split_and!; try done; [by exists f, d|].
    destruct t4 as [|e4 t4]; [done|]. by rewrite <- Hlast.
  - destruct Hres as (Hm & Hq). cbn. by rewrite app_nil_r, Hq.
  - done.
Qed.

(** The body of a sound thread never raises. *)
Lemma run_target_never_raises (fuel : nat) (self : NotificationController)
    (t : target) (w : world) (e : exn) :
  res (run_target E fuel self t w) ≠ Raise e.
Proof.
  assert (Hsound : ∀ p w', res (alert_sound E fuel self p w') ≠ Raise e)
    by (intros; apply alert_sound_never_raises).
  assert (Hboth : ∀ p q,
            res ((played ← alert_sound E fuel self p;
                  if negb played then alert_sound E fuel self q
                  else mret true) w) ≠ Raise e).
  { intros p q. rewrite bind_run.
    destruct (res (alert_sound E fuel self p w)) as [[]|e'|] eqn:Hp;
      cbn; [done|apply Hsound| |done].
    intros [= ->]. by apply (Hsound p w). }
  destruct t; unfold run_target, _alert_success, _alert_warning, _alert_error.
  - rewrite bind_run.
    match goal with |- context [res (?m w)] =>
      destruct (res (m w)) eqn:Hm end; cbn; [done| |done].
    intros [= ->]. by apply (Hboth _ _ Hm).
  - rewrite bind_run.
    destruct (res (alert_sound E fuel self _ w)) as [[]|e'|] eqn:Hp; cbn; [done| | |done].
    + rewrite bind_run.
      match goal with |- context [res (alert_sound E fuel self ?q ?w')] =>
        destruct (res (alert_sound E fuel self q w')) eqn:Hq end; cbn; [done| |done].
      intros [= ->]. by apply (Hsound _ _ Hq).
    + intros [= ->]. by apply (Hsound _ _ Hp).
  - rewrite bind_run.
    match goal with |- context [res (?m w)] =>
      destruct (res (m w)) eqn:Hm end; cbn; [done| |done].
    intros [= ->]. by apply (Hboth _ _ Hm).
Qed.

(** The three thread bodies are one: try the custom sound, then the
    default one; the result is dropped. *)
Lemma run_target_run (fuel : nat) (self : NotificationController)
    (t : target) (w : world) :
  run_target E fuel self t w
  = (played ← alert_sound E fuel self (custom_path self t);
     if negb played then alert_sound E fuel self (default_path self t);; mret ()
     else mret ()) w.
Proof.
  destruct t; cbn [run_target custom_path default_path];
    unfold _alert_success, _alert_warning, _alert_error; [|done|].
  all: rewrite !bind_run;
    destruct (alert_sound E fuel self _ w) as [[[]|e|] w1 t1];
    cbn [res final emitted negb mret M_ret]; rewrite ?app_nil_r; try done;
    rewrite bind_run;
    destruct (alert_sound E fuel self _ w1) as [[b|e|] w2 t2];
    cbn [res final emitted mret M_ret]; by rewrite ?app_nil_r.
Qed.

Lemma while_True_never_returns (fuel : nat) (body : M unit) : ∀ (w : world) (v : unit),
  res (while fuel (mret true) body w) ≠ Ret v.
Proof.
  induction fuel as [|fuel IH]; intros w v; [done|].
  cbn [while]. rewrite bind_run. cbn [mret M_ret res final emitted].
  rewrite bind_run. destruct (res (body w)); cbn [res]; [apply IH|done|done].
Qed.

Lemma count_repeat (P : event → bool) (e : event) (n : nat) :
  count P (repeat e n) = if P e then n else 0%nat.
Proof. induction n as [|n IH]; simpl; [by destruct (P e)|]. rewrite IH. by destruct (P e). Qed.

End Mixer.

Section Playing.
Context (E : env).
Hypothesis Hmixer : mixer_works E.

Lemma get_busy_run (w : world) :
  mixer_ready w = true →
  pygame_mixer_music_get_busy E w = Run (Ret (0 <? music_busy w)) w [].
Proof.
  intros Hready. unfold pygame_mixer_music_get_busy.
  destruct (Hmixer (clock w)) as (_ & _ & _ & -> & _). by rewrite Hready.
Qed.

(** The polling loop sleeps one tenth of a second per tenth of music. *)
Lemma while_busy_run (n : nat) : ∀ (fuel : nat) (w : world),
  mixer_ready w = true → music_busy w = Z.of_nat n → (n < fuel)%nat →
  while fuel (pygame_mixer_music_get_busy E) (time_sleep (tenths 1)) w
  = Run (Ret ())
        (World (fs w) (clock w + Z.of_nat n) true (music_loaded w) 0 (tts_queue w))
        (repeat (EvSleep (tenths 1)) n).
Proof.
  induction n as [|n IH]; intros fuel w Hready Hbusy Hfuel;
    (destruct fuel as [|fuel]; [lia|]);
    cbn [while]; rewrite bind_run, (get_busy_run w Hready), Hbusy;
    cbn [res final emitted].
  - cbn. destruct w; cbn in *. subst. by rewrite Z.add_0_r.
  - replace (0 <? Z.of_nat (S n)) with true by (symmetry; apply Z.ltb_lt; lia).
    rewrite bind_run.
    assert (Hsleep : time_sleep (tenths 1) w
                     = Run (Ret ()) (advance (tenths 1) w) [EvSleep (tenths 1)])
      by done.
    rewrite Hsleep. cbn [res final emitted].
    rewrite (IH fuel (advance (tenths 1) w));
      [|done|cbn [advance music_busy]; unfold tenths; lia|lia].
    cbn [res final emitted advance fs clock music_loaded tts_queue app repeat].
    unfold tenths. do 2 f_equal. lia.
Qed.

(** A sound that decodes plays to its end. *)
Lemma alert_sound_plays_run (fuel : nat) (self : NotificationController)
    (sound_file_path : path) (w : world) (f : file) (d : Z) :
  fs w !! sound_file_path = Some (Regular f) →
  decode E (data f) = Some d →
  (Z.to_nat d < fuel)%nat →
  alert_sound E fuel self sound_file_path w
  = Run (Ret true)
        (World (fs w) (clock w + Z.max 0 d) false None 0 (tts_queue w))
        ([EvMixerInit true; EvMusicLoad sound_file_path true; EvMusicPlay true]
         ++ repeat (EvSleep (tenths 1)) (Z.to_nat d)
         ++ [EvMusicStop true; EvMixerQuit true]).
Proof.
  intros Hfile Hdec Hfuel.
  destruct (Hmixer (clock w)) as (Hi & Hl & Hp & _ & _ & _).
  unfold alert_sound, try_except, mbind, M_bind, pygame_mixer_init,
    pygame_mixer_music_load, pygame_mixer_music_play.
  rewrite Hi. cbn [set_mixer clock mixer_ready fs negb music_loaded].
  rewrite Hl, Hfile, Hdec. cbn [set_mixer clock mixer_ready fs negb music_loaded].
  rewrite Hp.
  rewrite (while_busy_run (Z.to_nat d) fuel); [|done|simpl; lia|done].
  cbn [set_mixer fs clock mixer_ready music_loaded music_busy tts_queue].
  unfold pygame_mixer_music_stop, pygame_mixer_quit.
  cbn [set_mixer clock mixer_ready].
  destruct (Hmixer (clock w + Z.of_nat (Z.to_nat d))) as (_ & _ & _ & _ & Hs & Hq).
  rewrite Hs. cbn [set_mixer clock]. rewrite Hq.
  cbn [set_mixer fs clock mixer_ready music_loaded tts_queue mret M_ret app].
  unfold set_mixer. cbn [fs clock tts_queue].
  by replace (Z.of_nat (Z.to_nat d)) with (Z.max 0 d) by lia.
Qed.

(** The custom sound is missing, the default one decodes. *)
Lemma fallback_plays_run (fuel : nat) (self : NotificationController)
    (t : target) (w : world) (f : file) (d : Z) :
  is_regular (fs w !! custom_path self t) = false →
  fs w !! default_path self t = Some (Regular f) →
  decode E (data f) = Some d →
  (Z.to_nat d < fuel)%nat →
  run_target E fuel self t w
  = Run (Ret ())
        (World (fs w) (clock w + Z.max 0 d) false None 0 (tts_queue w))
        ([EvMixerInit true; EvMusicLoad (custom_path self t) false]
         ++ [EvMixerInit true; EvMusicLoad (default_path self t) true; EvMusicPlay true]
         ++ repeat (EvSleep (tenths 1)) (Z.to_nat d)
         ++ [EvMusicStop true; EvMixerQuit true]).
Proof.
  intros Hcustom Hdefault Hdec Hfuel.
  destruct (Hmixer (clock w)) as (Hinit & _).
  rewrite run_target_run, bind_run, (alert_sound_load_failure E fuel self _ w Hinit Hcustom).
  cbn [res final emitted negb]. rewrite bind_run.
  rewrite (alert_sound_plays_run fuel self _ _ f d); [|done..].
  cbn [res final emitted mret M_ret set_mixer fs clock tts_queue].
  by rewrite app_nil_r.
Qed.

End Playing.

(** Neither sound is there: two failed calls. *)
Lemma fallback_silent_run (E : env) (fuel : nat) (self : NotificationController)
    (t : target) (w : world) :
  fault E (clock w) SysMixerInit = None →
  is_regular (fs w !! custom_path self t) = false →
  is_regular (fs w !! default_path self t) = false →
  run_target E fuel self t w
  = Run (Ret ()) (set_mixer true (music_loaded w) (music_busy w) w)
        [EvMixerInit true; EvMusicLoad (custom_path self t) false;
         EvMixerInit true; EvMusicLoad (default_path self t) false].
Proof.
  intros Hinit Hcustom Hdefault.
  rewrite run_target_run, bind_run, (alert_sound_load_failure E fuel self _ w Hinit Hcustom).
  cbn [res final emitted negb]. rewrite bind_run.
  by rewrite (alert_sound_load_failure E fuel self _
                (set_mixer true (music_loaded w) (music_busy w) w) Hinit Hdefault).
Qed.

(** X11. A sound file that decodes, on a mixer that does not fail, is
    played to its end: [alert_sound] returns true, and it has blocked its
    caller for the length of the sound, one wait of a tenth of a second per
    tenth of a second of music; the music is over and the mixer is closed.
    This holds whether or not the mixer was initialised before the call. *)
Theorem alert_sound_plays_to_the_end (E : env) (fuel : nat)
    (self : NotificationController) (sound_file_path : path) (w : world)
    (f : file) (d : Z) :
  mixer_works E →
  fs w !! sound_file_path = Some (Regular f) →
  decode E (data f) = Some d →
  (Z.to_nat d < fuel)%nat →
  res (alert_sound E fuel self sound_file_path w) = Ret true
  ∧ clock (final (alert_sound E fuel self sound_file_path w)) = clock w + Z.max 0 d
  ∧ count is_poll (emitted (alert_sound E fuel self sound_file_path w)) = Z.to_nat d
  ∧ Forall (λ e, is_poll e = true → e = EvSleep (tenths 1))
      (emitted (alert_sound E fuel self sound_file_path w))
  ∧ music_busy (final (alert_sound E fuel self sound_file_path w)) = 0
  ∧ mixer_ready (final (alert_sound E fuel self sound_file_path w)) = false.
Proof.
  intros Hmixer Hfile Hdec Hfuel.
  rewrite (alert_sound_plays_run E Hmixer fuel self _ _ f d Hfile Hdec Hfuel).
  cbn [res final emitted clock music_busy mixer_ready]. split_and!; try done.
  - rewrite !count_app, count_repeat. cbn. lia.
  - rewrite !Forall_app. split_and!.
    + by repeat constructor.
    + apply Forall_forall. intros e He%list_elem_of_In%repeat_spec. by subst.
    + by repeat constructor.
Qed.

Lemma alert_sound_plays_to_the_end_witness :
  mixer_works Examples.quiet
  ∧ fs Examples.first_run !! ["data"; "bad.mp3"] = Some (Regular Examples.bad_mp3)
  ∧ decode Examples.quiet (data Examples.bad_mp3) = Some 3
  ∧ (Z.to_nat 3 < 10)%nat
  ∧ res (alert_sound Examples.quiet 10 Examples.controller ["data"; "bad.mp3"]
           Examples.first_run) = Ret true
  ∧ clock (final (alert_sound Examples.quiet 10 Examples.controller ["data"; "bad.mp3"]
                    Examples.first_run))
    = clock Examples.first_run + Z.max 0 3.
Proof.
  assert (Hm : mixer_works Examples.quiet) by (intros c; by split_and!).
  split; [exact Hm|]. split; [reflexivity|]. split; [reflexivity|]. split; [simpl; lia|].
  destruct (alert_sound_plays_to_the_end Examples.quiet 10 Examples.controller
              ["data"; "bad.mp3"] Examples.first_run Examples.bad_mp3 3 Hm)
    as (Hres & Hclock & _); [reflexivity|reflexivity|simpl; lia|].
  by split.
Defined.

(** X12. [alert_sound] returns true only after a playback: the path named
    a regular file that decoded, the music was started once, the last
    thing the call did was to close the mixer, which it leaves closed,
    and no file was changed.  This holds for every environment. *)
Theorem alert_sound_true_means_played (E : env) (fuel : nat)
    (self : NotificationController) (sound_file_path : path) (w : world) :
  res (alert_sound E fuel self sound_file_path w) = Ret true →
  (∃ f d, fs w !! sound_file_path = Some (Regular f) ∧ decode E (data f) = Some d)
  ∧ count is_play (emitted (alert_sound E fuel self sound_file_path w)) = 1%nat
  ∧ count is_quit (emitted (alert_sound E fuel self sound_file_path w)) = 1%nat
  ∧ last (emitted (alert_sound E fuel self sound_file_path w)) = Some (EvMixerQuit true)
  ∧ mixer_ready (final (alert_sound E fuel self sound_file_path w)) = false
  ∧ fs (final (alert_sound E fuel self sound_file_path w)) = fs w.
Proof.
  intros Hres.
  destruct (alert_sound_cases E fuel self sound_file_path w) as (Hfs & Hcases).
  rewrite Hres in Hcases. by destruct Hcases as (? & ? & ? & ? & ?).
Qed.

Lemma alert_sound_true_means_played_witness :
  res (alert_sound Examples.quiet 10 Examples.controller ["data"; "bad.mp3"]
         Examples.first_run) = Ret true
  ∧ mixer_ready (final (alert_sound Examples.quiet 10 Examples.controller
                          ["data"; "bad.mp3"] Examples.first_run)) = false.
Proof.
  split; [reflexivity|].
  apply (alert_sound_true_means_played Examples.quiet 10 Examples.controller
           ["data"; "bad.mp3"] Examples.first_run).
  reflexivity.
Defined.

(** X13. [alert_sound] releases the mixer on the success path only: a call
    that returns false has never closed the mixer, and when its [init]
    went through the mixer is initialised when the call returns, whatever
    made the call fail (a missing file, data that does not decode, a
    failing [play], [get_busy], [stop] or [quit]).  No file is changed. *)
Theorem alert_sound_false_keeps_the_mixer (E : env) (fuel : nat)
    (self : NotificationController) (sound_file_path : path) (w : world) :
  res (alert_sound E fuel self sound_file_path w) = Ret false →
  fault E (clock w) SysMixerInit = None →
  mixer_ready (final (alert_sound E fuel self sound_file_path w)) = true
  ∧ count is_quit (emitted (alert_sound E fuel self sound_file_path w)) = 0%nat
  ∧ fs (final (alert_sound E fuel self sound_file_path w)) = fs w.
Proof.
  intros Hres Hinit.
  destruct (alert_sound_cases E fuel self sound_file_path w) as (Hfs & Hcases).
  rewrite Hres in Hcases. destruct Hcases as (Hquit & Hready). auto.
Qed.

Lemma alert_sound_false_keeps_the_mixer_witness :
  res (alert_sound Examples.quiet 10 Examples.controller ["bad.mp3"]
         Examples.first_run) = Ret false
  ∧ fault Examples.quiet (clock Examples.first_run) SysMixerInit = None
  ∧ mixer_ready (final (alert_sound Examples.quiet 10 Examples.controller ["bad.mp3"]
                          Examples.first_run)) = true.
Proof.
  split; [reflexivity|]. split; [reflexivity|].
  apply (alert_sound_false_keeps_the_mixer Examples.quiet 10 Examples.controller
           ["bad.mp3"] Examples.first_run); reflexivity.
Defined.

(** X14. Falling back works, for each of the three alerts: when the custom
    sound is not in the working directory and the default sound decodes,
    the thread returns after the length of the default sound; the music
    was started once, after the failed load of the custom sound, and the
    mixer, which the failed call had left initialised, is closed. *)
Theorem missing_custom_sound_plays_the_default (E : env) (fuel : nat)
    (self : NotificationController) (t : target) (w : world) (f : file) (d : Z) :
  mixer_works E →
  is_regular (fs w !! custom_path self t) = false →
  fs w !! default_path self t = Some (Regular f) →
  decode E (data f) = Some d →
  (Z.to_nat d < fuel)%nat →
  res (run_target E fuel self t w) = Ret ()
  ∧ clock (final (run_target E fuel self t w)) = clock w + Z.max 0 d
  ∧ count is_play (emitted (run_target E fuel self t w)) = 1%nat
  ∧ (∃ rest, emitted (run_target E fuel self t w)
             = [EvMixerInit true; EvMusicLoad (custom_path self t) false;
                EvMixerInit true; EvMusicLoad (default_path self t) true;
                EvMusicPlay true] ++ rest)
  ∧ mixer_ready (final (run_target E fuel self t w)) = false
  ∧ fs (final (run_target E fuel self t w)) = fs w.
Proof.
  intros Hmixer Hcustom Hdefault Hdec Hfuel.
  rewrite (fallback_plays_run E Hmixer fuel self t w f d Hcustom Hdefault Hdec Hfuel).
  cbn [res final emitted clock mixer_ready fs]. split_and!; try done.
  - rewrite !count_app, count_repeat. by cbn.
  - by eexists.
Qed.

Lemma missing_custom_sound_plays_the_default_witness :
  mixer_works Examples.quiet
  ∧ is_regular (fs Examples.first_run
                  !! custom_path make_re_backup_controller Target_alert_error) = false
  ∧ fs Examples.first_run !! default_path make_re_backup_controller Target_alert_error
    = Some (Regular Examples.bad_mp3)
  ∧ decode Examples.quiet (data Examples.bad_mp3) = Some 3
  ∧ (Z.to_nat 3 < 10)%nat
  ∧ res (run_target Examples.quiet 10 make_re_backup_controller Target_alert_error
           Examples.first_run) = Ret ()
  ∧ clock (final (run_target Examples.quiet 10 make_re_backup_controller
                    Target_alert_error Examples.first_run))
    = clock Examples.first_run + Z.max 0 3.
Proof.
  assert (Hm : mixer_works Examples.quiet) by (intros c; by split_and!).
  split; [exact Hm|]. split; [reflexivity|]. split; [reflexivity|].
  split; [reflexivity|]. split; [simpl; lia|].
  destruct (missing_custom_sound_plays_the_default Examples.quiet 10
              make_re_backup_controller Target_alert_error Examples.first_run
              Examples.bad_mp3 3 Hm)
    as (Hres & Hclock & _); [reflexivity|reflexivity|reflexivity|simpl; lia|].
  by split.
Defined.

(** X15. An alert with no sound file is silent and goes unnoticed: when
    neither the custom nor the default sound is a regular file, the thread
    of each of the three alerts returns normally, having started no music
    and taken no time; two loads were tried, and the mixer is left
    initialised. *)
Theorem alert_without_sound_files_is_silent (E : env) (fuel : nat)
    (self : NotificationController) (t : target) (w : world) :
  fault E (clock w) SysMixerInit = None →
  is_regular (fs w !! custom_path self t) = false →
  is_regular (fs w !! default_path self t) = false →
  res (run_target E fuel self t w) = Ret ()
  ∧ count is_play (emitted (run_target E fuel self t w)) = 0%nat
  ∧ count is_poll (emitted (run_target E fuel self t w)) = 0%nat
  ∧ EvMusicLoad (custom_path self t) false ∈ emitted (run_target E fuel self t w)
  ∧ EvMusicLoad (default_path self t) false ∈ emitted (run_target E fuel self t w)
  ∧ clock (final (run_target E fuel self t w)) = clock w
  ∧ mixer_ready (final (run_target E fuel self t w)) = true.
Proof.
  intros Hinit Hcustom Hdefault.
  rewrite (fallback_silent_run E fuel self t w Hinit Hcustom Hdefault).
  cbn [res final emitted set_mixer clock mixer_ready]. split_and!; try done.
  - by apply list_elem_of_In; right; left.
  - by apply list_elem_of_In; right; right; right; left.
Qed.

Lemma alert_without_sound_files_is_silent_witness :
  fault Examples.quiet (clock (Examples.at_noon ∅)) SysMixerInit = None
  ∧ is_regular (fs (Examples.at_noon ∅)
                  !! custom_path make_re_backup_controller Target_alert_error) = false
  ∧ is_regular (fs (Examples.at_noon ∅)
                  !! default_path make_re_backup_controller Target_alert_error) = false
  ∧ res (run_target Examples.quiet 10 make_re_backup_controller Target_alert_error
           (Examples.at_noon ∅)) = Ret ()
  ∧ count is_play (emitted (run_target Examples.quiet 10 make_re_backup_controller
                              Target_alert_error (Examples.at_noon ∅))) = 0%nat.
Proof.
  split; [reflexivity|]. split; [reflexivity|]. split; [reflexivity|].
  destruct (alert_without_sound_files_is_silent Examples.quiet 10
              make_re_backup_controller Target_alert_error (Examples.at_noon ∅))
    as (Hres & Hplay & _); [reflexivity|reflexivity|reflexivity|].
  by split.
Defined.

(** X16. The body of a sound thread never raises and never changes a
    file, in every environment and for each of the three alerts: what
    goes wrong with the mixer or the sound files stays inside the
    thread. *)
Theorem sound_thread_never_raises (E : env) (fuel : nat)
    (self : NotificationController) (t : target) (w : world) :
  (∀ e, res (run_target E fuel self t w) ≠ Raise e)
  ∧ fs (final (run_target E fuel self t w)) = fs w.
Proof.
  split; [intros e; apply run_target_never_raises|].
  rewrite run_target_run, bind_run.
  destruct (alert_sound_cases E fuel self (custom_path self t) w) as (Hfs & _).
  destruct (alert_sound E fuel self (custom_path self t) w) as [[[]|e|] w1 t1];
    cbn in Hfs; cbn [res final emitted negb mret M_ret]; try done.
  rewrite bind_run.
  destruct (alert_sound_cases E fuel self (default_path self t) w1) as (Hfs' & _).
  destruct (alert_sound E fuel self (default_path self t) w1) as [[b|e|] w2 t2];
    cbn in Hfs'; cbn [res final emitted mret M_ret]; congruence.
Qed.

(** X17. [make_re_backup] never returns: however many turns are observed,
    the loop is still running or has been ended by an exception. *)
Theorem make_re_backup_never_returns (E : env) (fuel : nat) (timeaut_minutes : Z)
    (w : world) (v : unit) :
  res (make_re_backup E fuel timeaut_minutes w) ≠ Ret v.
Proof. unfold make_re_backup. apply while_True_never_returns. Qed.

(** X18. Agreement is kept: started in a state in which source and
    destination list the same names, [make_re_backup] performs no copy
    and no delete in any of its turns, in every environment and for every
    interval. *)
Theorem agreement_is_stable (E : env) (timeaut_minutes : Z) (w : world) :
  set_ (children SRC_DIRECTORY (fs w)) = set_ (children DIST_DIRECTORY (fs w)) →
  ∀ fuel,
    count is_copy (emitted (make_re_backup E fuel timeaut_minutes w)) = 0%nat
    ∧ count is_remove (emitted (make_re_backup E fuel timeaut_minutes w)) = 0%nat.
Proof. intros Heq fuel. unfold make_re_backup. by apply synced_loop_idle. Qed.

Lemma agreement_is_stable_witness :
  set_ (children SRC_DIRECTORY (fs Examples.in_sync))
  = set_ (children DIST_DIRECTORY (fs Examples.in_sync))
  ∧ ∀ fuel,
      count is_copy (emitted (make_re_backup Examples.disk_full fuel 60
                                Examples.in_sync)) = 0%nat
      ∧ count is_remove (emitted (make_re_backup Examples.disk_full fuel 60
                                    Examples.in_sync)) = 0%nat.
Proof.
  split; [reflexivity|].
  apply (agreement_is_stable Examples.disk_full 60 Examples.in_sync).
  reflexivity.
Defined.
